(** * fix_csv: the encoding resolver and the cleaning engine of [script.js]

    A shallow embedding of the pure core of [script.js]: the helpers
    [safeCellText] and [normalizeHeaderValue], the candidate loop of
    [readFileWithBestEncoding], and [cleanData] with the part of the
    page state it reads and writes.

    Conventions.
    - A JavaScript string is the list of its UTF-16 code units, each a
      number in [N].  The regular expressions of the script carry no
      [u] flag, so they too work on code units.
    - A row is a JavaScript array, modelled as a list: the parser the
      script uses ([Papa.parse] without [header]) only produces arrays
      of cells, and [cleanData] works on the copy [[...row]] of each
      row, an array, so that its test [Array.isArray(row)] always
      passes.
    - Counters are JavaScript numbers that only ever hold small natural
      numbers; they are modelled in [nat].
    - What the browser provides ([String.prototype.toLowerCase],
      [TextDecoder], [FileReader.readAsText]) is a field of the record
      [Host]; the theorems quantify over hosts and say which property of
      the host they rely on. *)

From stdpp Require Import base numbers list strings gmap.
From Stdlib.Strings Require Import Byte.

Local Open Scope N_scope.

(* [set_solver] clears hypotheses by generated names. *)
#[local] Set Warnings "-clear-no-such-hyp".

(** ** JavaScript strings *)

Abbreviation jsstring := (list N).

Definition BOM : N := 0xFEFF.
Definition REPLACEMENT : N := 0xFFFD.
Definition CR : N := 13.
Definition LF : N := 10.
Definition UNDERSCORE : N := 95.
Definition SOH : N := 1.

(** The code units matched by [\s] and removed by [trim()]: the
    ECMAScript WhiteSpace and LineTerminator productions. *)
Definition isWhiteSpace (c : N) : bool :=
  ((9 <=? c) && (c <=? 13)) || (c =? 32) || (c =? 0xA0) || (c =? 0x1680)
  || ((0x2000 <=? c) && (c <=? 0x200A)) || (c =? 0x2028) || (c =? 0x2029)
  || (c =? 0x202F) || (c =? 0x205F) || (c =? 0x3000) || (c =? 0xFEFF).

(** The character class [[a-z0-9_]]. *)
Definition isHeaderChar (c : N) : bool :=
  ((97 <=? c) && (c <=? 122)) || ((48 <=? c) && (c <=? 57)) || (c =? 95).

Definition isUnderscore (c : N) : bool := c =? 95.

Fixpoint dropWhile (p : N → bool) (s : jsstring) : jsstring :=
  match s with
  | [] => []
  | c :: r => if p c then dropWhile p r else s
  end.

Fixpoint dropWhileEnd (p : N → bool) (s : jsstring) : jsstring :=
  match s with
  | [] => []
  | c :: r =>
      match dropWhileEnd p r with
      | [] => if p c then [] else [c]
      | r' => c :: r'
      end
  end.

(** [s.trim()] *)
Definition str_trim (s : jsstring) : jsstring :=
  dropWhileEnd isWhiteSpace (dropWhile isWhiteSpace s).

(** [s.replace(/P+/g, rep)] for a one-unit class [P]: every maximal run
    of units in the class becomes the single unit [rep] (emitted when
    the last unit of the run is read). *)
Fixpoint replaceRuns (p : N → bool) (rep : N) (s : jsstring) : jsstring :=
  match s with
  | [] => []
  | c :: r =>
      if p c then
        match r with
        | c' :: _ => if p c' then replaceRuns p rep r
                     else rep :: replaceRuns p rep r
        | [] => [rep]
        end
      else c :: replaceRuns p rep r
  end.

(** [s.replace(/[^a-z0-9_]/g, '_')] *)
Definition replaceNonHeaderChars (s : jsstring) : jsstring :=
  (λ c, if isHeaderChar c then c else UNDERSCORE) <$> s.

(** [s.replace(/^_+|_+$/g, '')] *)
Definition stripUnderscores (s : jsstring) : jsstring :=
  dropWhileEnd isUnderscore (dropWhile isUnderscore s).

(** [s.replace(/\r\n|\r/g, '\n')] *)
Fixpoint normalizeLineEndings (s : jsstring) : jsstring :=
  match s with
  | [] => []
  | c :: r =>
      if c =? CR then
        LF :: match r with
              | c' :: r' => if c' =? LF then normalizeLineEndings r'
                            else normalizeLineEndings r
              | [] => []
              end
      else c :: normalizeLineEndings r
  end.

(** [s.replace(/^\uFEFF/, '')] and the resolver's
    [if (s.charCodeAt(0) === 0xfeff) s = s.slice(1)]: one unit, at
    position 0 only. *)
Definition stripLeadingBOM (s : jsstring) : jsstring :=
  match s with
  | c :: r => if c =? BOM then r else s
  | [] => []
  end.

(** [(s.match(/\uFFFD/g) || []).length] *)
Definition countReplacements (s : jsstring) : nat :=
  length (filter (λ c, c = REPLACEMENT) s).

(** [row.join(sep)] on an array of strings. *)
Fixpoint join (sep : jsstring) (row : list jsstring) : jsstring :=
  match row with
  | [] => []
  | [c] => c
  | c :: r => c ++ sep ++ join sep r
  end.

(** ** Cells *)

(** A cell as the parser may hand it over: a string, or one of the two
    values [safeCellText] maps to the empty string. *)
Inductive cell : Type :=
  | CNull
  | CUndefined
  | CStr (s : jsstring).

Definition safeCellText (value : cell) : jsstring :=
  match value with
  | CNull | CUndefined => []
  | CStr s => s
  end.

(** ** Results and errors *)

Inductive error : Type :=
  | NoCsvData        (* 'No CSV data to clean.' *)
  | AllRowsRemoved   (* 'All rows were removed during cleaning. ...' *)
  | JsTypeError      (* a property read on [undefined] *)
  | ParseError       (* the parser failed or returned no row *)
  | HostError        (* an exception raised by the host's decoder *)
  | ReadError.       (* [textReader.onerror]: the file could not be read *)

Inductive result (A : Type) : Type :=
  | Ok (a : A)
  | Err (e : error).
Arguments Ok {A} a.
Arguments Err {A} e.

#[global] Instance result_ret : MRet result := λ A a, Ok a.
#[global] Instance result_bind : MBind result := λ A B f r,
  match r with
  | Ok a => f a
  | Err e => Err e
  end.
#[global] Instance result_fmap : FMap result := λ A B f r,
  match r with
  | Ok a => Ok (f a)
  | Err e => Err e
  end.

(** A JavaScript number that holds a count or [Number.POSITIVE_INFINITY]. *)
Inductive jsnum : Type :=
  | Finite (n : nat)
  | PosInfinity.

Definition num_lt (a b : jsnum) : bool :=
  match a, b with
  | Finite x, Finite y => (x <? y)%nat
  | Finite _, PosInfinity => true
  | PosInfinity, _ => false
  end.

(** ** The host *)

Abbreviation row := (list jsstring).
Abbreviation grid := (list (list jsstring)).

Record Host : Type := {
  (** [s.toLowerCase()] *)
  toLowerCase : jsstring → jsstring;
  (** [typeof TextDecoder !== 'undefined'] *)
  hasTextDecoder : bool;
  (** [new TextDecoder(enc, { fatal: false }).decode(buffer)];
      [None] when the constructor or the call throws. *)
  decodeWith : string → list byte → option jsstring;
  (** [new TextDecoder().decode(buffer)] *)
  decodeDefault : list byte → option jsstring;
  (** [FileReader.readAsText(file)]: the text handed to [onload], or
      [None] when [onerror] is called. *)
  readAsText : list byte → option jsstring;
  (** [Papa.parse(text, ...)]: the rows handed to [complete], or [None]
      when [error] is called. *)
  parseCsv : jsstring → option (list (list cell));
}.

(** ** Page state *)

Record Stats : Type := {
  removedEmpty : nat;
  duplicatesRemoved : nat;
  trimmedColumns : nat;
  paddedColumns : nat;
}.

Record Options : Type := {
  trim : bool;
  removeEmpty : bool;
  fixColumns : bool;
  dedupe : bool;
  normalizeHeader : bool;
}.

(** The fields of [state] that parsing and cleaning read or write. *)
Record State : Type := {
  encodingUsed : string;
  encodingHasIssues : bool;
  originalData : option (list (list cell));
  cleanedData : option grid;
  rowsBefore : nat;
  rowsAfter : nat;
  lastStats : option Stats;
}.

Definition initialState : State :=
  {| encodingUsed := "utf-8"; encodingHasIssues := false;
     originalData := None; cleanedData := None;
     rowsBefore := 0; rowsAfter := 0; lastStats := None |}.

(** Statements that may throw and that read and write [state]: what was
    written before a throw stays written. *)
Definition M (A : Type) : Type := State → result A * State.

#[global] Instance M_ret : MRet M := λ A a st, (Ok a, st).
#[global] Instance M_bind : MBind M := λ A B f m st,
  match m st with
  | (Ok a, st') => f a st'
  | (Err e, st') => (Err e, st')
  end.

Definition throw {A} (e : error) : M A := λ st, (Err e, st).
Definition get : M State := λ st, (Ok st, st).
Definition modify (f : State → State) : M unit := λ st, (Ok tt, f st).
Definition lift {A} (r : result A) : M A := λ st, (r, st).

Section WithHost.

Variable host : Host.

(** ** [normalizeHeaderValue] *)

Definition normalizeHeaderValue (value : cell) : jsstring :=
  let raw := toLowerCase host (str_trim (safeCellText value)) in
  match raw with
  | [] => []
  | _ =>
      stripUnderscores
        (replaceRuns isUnderscore UNDERSCORE
           (replaceNonHeaderChars
              (replaceRuns isWhiteSpace UNDERSCORE raw)))
  end.

(** ** [readFileWithBestEncoding], from the loaded buffer on *)

Record Best : Type := {
  text : jsstring;
  encoding : string;
  replacementCount : jsnum;
}.

Definition encodingsToTry : list string :=
  ["utf-8"; "windows-1252"; "iso-8859-1"]%string.

Definition initialBest : Best :=
  {| text := []; encoding := "utf-8"; replacementCount := PosInfinity |}.

(** The body of the [forEach] callback. *)
Definition tryEncoding (buffer : list byte) (best : Best) (enc : string)
  : Best :=
  match decodeWith host enc buffer with
  | Some t =>
      let count := Finite (countReplacements t) in
      if num_lt count (replacementCount best)
      then {| text := t; encoding := enc; replacementCount := count |}
      else best
  | None => best
  end.

Definition tryEncodings (buffer : list byte) (encs : list string) : Best :=
  foldl (tryEncoding buffer) initialBest encs.

(** [if (!best.text) { ... }] *)
Definition fallbackIfEmpty (buffer : list byte) (best : Best) : result Best :=
  match text best with
  | [] =>
      match decodeDefault host buffer with
      | Some t => Ok {| text := t; encoding := "utf-8";
                        replacementCount := Finite (countReplacements t) |}
      | None => Err HostError
      end
  | _ => Ok best
  end.

(** The record the resolver holds after the candidate loop and the
    fallback, before the byte-order mark is looked at. *)
Definition selectBest (buffer : list byte) : result Best :=
  fallbackIfEmpty buffer (tryEncodings buffer encodingsToTry).

Definition stripBestBOM (best : Best) : Best :=
  {| text := stripLeadingBOM (text best); encoding := encoding best;
     replacementCount := replacementCount best |}.

(** The body of [reader.onload], from the bytes read on.  Without
    [TextDecoder] a second reader reads the file as text: it resolves
    from [textReader.onload] and rejects from [textReader.onerror]. *)
Definition readFileWithBestEncoding (buffer : list byte) : result Best :=
  if hasTextDecoder host then
    best ← selectBest buffer; mret (stripBestBOM best)
  else
    match readAsText host buffer with
    | Some t => Ok {| text := t; encoding := "utf-8";
                      replacementCount := Finite 0 |}
    | None => Err ReadError
    end.

(** ** [parseCsvText] and the part of [handleFileChange] that fills [state] *)

Definition parseCsvText (t : jsstring) : result (list (list cell)) :=
  match parseCsv host t with
  | None => Err ParseError
  | Some [] => Err ParseError
  | Some data => Ok data
  end.

Definition resetStats : M unit :=
  modify (λ st,
    {| encodingUsed := encodingUsed st;
       encodingHasIssues := encodingHasIssues st;
       originalData := originalData st; cleanedData := cleanedData st;
       rowsBefore := 0; rowsAfter := 0; lastStats := None |}).

Definition clearData : M unit :=
  modify (λ st,
    {| encodingUsed := encodingUsed st;
       encodingHasIssues := encodingHasIssues st;
       originalData := None; cleanedData := None;
       rowsBefore := rowsBefore st; rowsAfter := rowsAfter st;
       lastStats := lastStats st |}).

Definition setEncoding (best : Best) : M unit :=
  modify (λ st,
    {| encodingUsed := if String.eqb (encoding best) "" then "utf-8"
                       else encoding best;
       encodingHasIssues := num_lt (Finite 0) (replacementCount best);
       originalData := originalData st; cleanedData := cleanedData st;
       rowsBefore := rowsBefore st; rowsAfter := rowsAfter st;
       lastStats := lastStats st |}).

Definition setOriginalData (data : list (list cell)) : M unit :=
  modify (λ st,
    {| encodingUsed := encodingUsed st;
       encodingHasIssues := encodingHasIssues st;
       originalData := Some data; cleanedData := cleanedData st;
       rowsBefore := length data; rowsAfter := rowsAfter st;
       lastStats := lastStats st |}).

(** The handler catches what the [try] block throws and shows it; an
    [Err] result here stands for that message, the state being the one
    left behind. *)
Definition handleFileChange (file : option (list byte)) : M unit :=
  resetStats;;
  clearData;;
  match file with
  | None => mret tt
  | Some buffer =>
      best ← lift (readFileWithBestEncoding buffer);
      setEncoding best;;
      data ← lift (parseCsvText (text best));
      setOriginalData data
  end.

(** ** [cleanData] *)

Definition zeroStats : Stats :=
  {| removedEmpty := 0; duplicatesRemoved := 0;
     trimmedColumns := 0; paddedColumns := 0 |}.

(** Step 1, on the clone of [state.originalData]. *)
Definition stripBomResidue (data : list (list cell)) : list (list cell) :=
  match data !! 0%nat with
  | Some row0 =>
      match row0 !! 0%nat with
      | Some (CStr s) =>
          <[0%nat := <[0%nat := CStr (stripLeadingBOM s)]> row0]> data
      | _ => data
      end
  | None => data
  end.

(** Step 2: the callback of [row.map]. *)
Definition cleanCell (options : Options) (c : cell) : jsstring :=
  let value := normalizeLineEndings (safeCellText c) in
  if trim options then str_trim value else value.

Definition isEmptyRow (newRow : row) : bool :=
  forallb (λ c, bool_decide (str_trim (safeCellText (CStr c)) = [])) newRow.

(** Step 2: the body of the loop over [data], for a row that is an
    array. *)
Definition cleanRow (options : Options) (acc : grid * Stats)
  (r : list cell) : grid * Stats :=
  let '(cleanedRows, stats) := acc in
  let newRow := cleanCell options <$> r in
  if removeEmpty options && isEmptyRow newRow then
    (cleanedRows,
     {| removedEmpty := S (removedEmpty stats);
        duplicatesRemoved := duplicatesRemoved stats;
        trimmedColumns := trimmedColumns stats;
        paddedColumns := paddedColumns stats |})
  else (cleanedRows ++ [newRow], stats).

Definition cleanRows (options : Options) (data : list (list cell))
  (stats : Stats) : grid * Stats :=
  foldl (cleanRow options) ([], stats) data.

(** Step 3: the body of the loop over [cleanedRows]. *)
Definition fixRow (expectedCols : nat) (acc : grid * Stats) (r : row)
  : grid * Stats :=
  let '(finalRows, stats) := acc in
  let diff := (Z.of_nat (length r) - Z.of_nat expectedCols)%Z in
  if (diff =? 0)%Z then (finalRows ++ [r], stats)
  else if (0 <? diff)%Z then
    (finalRows ++ [take expectedCols r],
     {| removedEmpty := removedEmpty stats;
        duplicatesRemoved := duplicatesRemoved stats;
        trimmedColumns := S (trimmedColumns stats);
        paddedColumns := paddedColumns stats |})
  else
    (finalRows ++ [r ++ replicate (Z.to_nat (Z.abs diff)) []],
     {| removedEmpty := removedEmpty stats;
        duplicatesRemoved := duplicatesRemoved stats;
        trimmedColumns := trimmedColumns stats;
        paddedColumns := S (paddedColumns stats) |}).

Definition fixColumnCounts (options : Options) (cleanedRows : grid)
  (stats : Stats) : result (grid * Stats) :=
  if fixColumns options then
    match cleanedRows !! 0%nat with
    | Some first => Ok (foldl (fixRow (length first)) ([], stats) cleanedRows)
    | None => Err JsTypeError
    end
  else Ok (cleanedRows, stats).

(** Step 4. *)
Definition normalizeHeaderRow (options : Options) (finalRows : grid)
  : result grid :=
  if normalizeHeader options then
    match finalRows !! 0%nat with
    | Some header =>
        Ok (<[0%nat := (λ c, normalizeHeaderValue (CStr c)) <$> header]>
              finalRows)
    | None => Err JsTypeError
    end
  else Ok finalRows.

(** Step 5: the key of a row and the body of the loop from row 1 on. *)
Definition rowKey (r : row) : jsstring := join [SOH] r.

Definition dedupeRow (acc : gset jsstring * grid * Stats) (r : row)
  : gset jsstring * grid * Stats :=
  let '(seen, deduped, stats) := acc in
  let key := rowKey r in
  if bool_decide (key ∈ seen) then
    (seen, deduped,
     {| removedEmpty := removedEmpty stats;
        duplicatesRemoved := S (duplicatesRemoved stats);
        trimmedColumns := trimmedColumns stats;
        paddedColumns := paddedColumns stats |})
  else ({[key]} ∪ seen, deduped ++ [r], stats).

Definition dedupeLoop (header : row) (rest : grid) (stats : Stats)
  : gset jsstring * grid * Stats :=
  foldl dedupeRow ({[rowKey header]}, [header], stats) rest.

Definition dedupeRows (options : Options) (finalRows : grid) (stats : Stats)
  : result (grid * Stats) :=
  if dedupe options then
    match finalRows !! 0%nat with
    | Some header =>
        let '(_, deduped, stats') :=
          dedupeLoop header (drop 1 finalRows) stats in
        Ok (deduped, stats')
    | None => Err JsTypeError
    end
  else Ok (finalRows, stats).

(** Steps 3 to 5, which run once the guard on [cleanedRows] has passed. *)
Definition finishRows (options : Options) (cleanedRows : grid)
  (stats : Stats) : result (grid * Stats) :=
  '(finalRows, stats) ← fixColumnCounts options cleanedRows stats;
  finalRows ← normalizeHeaderRow options finalRows;
  dedupeRows options finalRows stats.

Definition storeCleaned (finalRows : grid) (stats : Stats) : M unit :=
  modify (λ st,
    {| encodingUsed := encodingUsed st;
       encodingHasIssues := encodingHasIssues st;
       originalData := originalData st;
       cleanedData := Some finalRows;
       rowsBefore := rowsBefore st;
       rowsAfter := length finalRows;
       lastStats := Some stats |}).

Definition cleanData (options : Options) : M unit :=
  st ← get;
  match originalData st with
  | None | Some [] => throw NoCsvData
  | Some original =>
      let data := stripBomResidue original in
      let '(cleanedRows, stats) := cleanRows options data zeroStats in
      match cleanedRows with
      | [] => throw AllRowsRemoved
      | _ =>
          '(finalRows, stats) ← lift (finishRows options cleanedRows stats);
          storeCleaned finalRows stats
      end
  end.

End WithHost.

(** ** A reference host

    A concrete host to run the definitions on: the UTF-8 decoder and the
    windows-1252 index of the WHATWG Encoding Standard (which maps the
    label [iso-8859-1] to windows-1252 as well), lower-casing for Basic
    Latin, Latin-1 and U+0130, and a splitter on commas and line feeds
    in place of the parser.  The theorems below do not depend on it. *)

Module Reference.

Record utf8_state : Type := {
  code_point : N;
  bytes_seen : N;
  bytes_needed : N;
  lower_boundary : N;
  upper_boundary : N;
}.

Definition utf8_initial : utf8_state :=
  {| code_point := 0; bytes_seen := 0; bytes_needed := 0;
     lower_boundary := 0x80; upper_boundary := 0xBF |}.

(** A byte read while no sequence is open. *)
Definition utf8_lead (b : N) : list N * utf8_state :=
  if b <=? 0x7F then ([b], utf8_initial)
  else if (0xC2 <=? b) && (b <=? 0xDF) then
    ([], {| code_point := N.land b 0x1F; bytes_seen := 0; bytes_needed := 1;
            lower_boundary := 0x80; upper_boundary := 0xBF |})
  else if (0xE0 <=? b) && (b <=? 0xEF) then
    ([], {| code_point := N.land b 0xF; bytes_seen := 0; bytes_needed := 2;
            lower_boundary := if b =? 0xE0 then 0xA0 else 0x80;
            upper_boundary := if b =? 0xED then 0x9F else 0xBF |})
  else if (0xF0 <=? b) && (b <=? 0xF4) then
    ([], {| code_point := N.land b 0x7; bytes_seen := 0; bytes_needed := 3;
            lower_boundary := if b =? 0xF0 then 0x90 else 0x80;
            upper_boundary := if b =? 0xF4 then 0x8F else 0xBF |})
  else ([REPLACEMENT], utf8_initial).

(** The decoder in replacement mode: the code points of a byte stream. *)
Fixpoint utf8_run (st : utf8_state) (bs : list N) : list N :=
  match bs with
  | [] => if bytes_needed st =? 0 then [] else [REPLACEMENT]
  | b :: r =>
      if bytes_needed st =? 0 then
        let '(out, st') := utf8_lead b in out ++ utf8_run st' r
      else if (lower_boundary st <=? b) && (b <=? upper_boundary st) then
        let cp := N.lor (N.shiftl (code_point st) 6) (N.land b 0x3F) in
        if bytes_seen st + 1 =? bytes_needed st then
          cp :: utf8_run utf8_initial r
        else
          utf8_run {| code_point := cp; bytes_seen := bytes_seen st + 1;
                      bytes_needed := bytes_needed st;
                      lower_boundary := 0x80; upper_boundary := 0xBF |} r
      else
        let '(out, st') := utf8_lead b in
        REPLACEMENT :: out ++ utf8_run st' r
  end.

(** A code point as UTF-16 code units. *)
Definition utf16_units (cp : N) : jsstring :=
  if cp <? 0x10000 then [cp]
  else
    let v := cp - 0x10000 in
    [0xD800 + N.shiftr v 10; 0xDC00 + N.land v 0x3FF].

(** [TextDecoder] without [ignoreBOM] drops one leading encoded BOM. *)
Definition skipUtf8BOM (bs : list N) : list N :=
  match bs with
  | 0xEF :: 0xBB :: 0xBF :: r => r
  | _ => bs
  end.

Definition decodeUtf8 (buffer : list byte) : jsstring :=
  utf8_run utf8_initial (skipUtf8BOM (Byte.to_N <$> buffer)) ≫= utf16_units.

Definition windows1252_high : list N :=
  [0x20AC; 0x0081; 0x201A; 0x0192; 0x201E; 0x2026; 0x2020; 0x2021;
   0x02C6; 0x2030; 0x0160; 0x2039; 0x0152; 0x008D; 0x017D; 0x008F;
   0x0090; 0x2018; 0x2019; 0x201C; 0x201D; 0x2022; 0x2013; 0x2014;
   0x02DC; 0x2122; 0x0161; 0x203A; 0x0153; 0x009D; 0x017E; 0x0178].

Definition windows1252_unit (b : N) : N :=
  if (0x80 <=? b) && (b <=? 0x9F)
  then default b (windows1252_high !! N.to_nat (b - 0x80))
  else b.

Definition decodeWindows1252 (buffer : list byte) : jsstring :=
  (λ b, windows1252_unit (Byte.to_N b)) <$> buffer.

Definition decodeLabel (enc : string) (buffer : list byte)
  : option jsstring :=
  if String.eqb enc "utf-8" then Some (decodeUtf8 buffer)
  else if String.eqb enc "windows-1252" then Some (decodeWindows1252 buffer)
  else if String.eqb enc "iso-8859-1" then Some (decodeWindows1252 buffer)
  else None.

Definition lowerUnit (c : N) : jsstring :=
  if (65 <=? c) && (c <=? 90) then [c + 32]
  else if (0xC0 <=? c) && (c <=? 0xDE) && negb (c =? 0xD7) then [c + 32]
  else if c =? 0x130 then [0x69; 0x307]
  else [c].

Definition lowerCase (s : jsstring) : jsstring := s ≫= lowerUnit.

(** Rows at line feeds (a carriage return before one is dropped), cells
    at commas; no quoting. *)
Fixpoint splitAt (sep : N) (s : jsstring) : list jsstring :=
  match s with
  | [] => [[]]
  | c :: r =>
      if c =? sep then [] :: splitAt sep r
      else match splitAt sep r with
           | cur :: more => (c :: cur) :: more
           | [] => [[c]]
           end
  end.

Definition splitRows (t : jsstring) : list (list cell) :=
  (λ line, CStr <$> splitAt 44 (dropWhileEnd (λ c, c =? CR) line))
    <$> splitAt LF t.

Definition host : Host :=
  {| toLowerCase := lowerCase;
     hasTextDecoder := true;
     decodeWith := decodeLabel;
     decodeDefault := λ buffer, Some (decodeUtf8 buffer);
     readAsText := λ buffer, Some (decodeUtf8 buffer);
     parseCsv := λ t, Some (splitRows t) |}.

(** A host without [TextDecoder] on which the file cannot be read as
    text. *)
Definition unreadable : Host :=
  {| toLowerCase := lowerCase;
     hasTextDecoder := false;
     decodeWith := λ _ _, None;
     decodeDefault := λ _, None;
     readAsText := λ _, None;
     parseCsv := λ t, Some (splitRows t) |}.

(** ASCII text as code units, rows and file contents, for the examples. *)
Definition units (s : string) : jsstring :=
  (λ a, Ascii.N_of_ascii a) <$> String.list_ascii_of_string s.

Definition strings (l : list string) : row := units <$> l.

Definition cells (l : list string) : list cell := (λ s, CStr (units s)) <$> l.

Definition bytes (s : string) : list byte := String.list_byte_of_string s.

(** The bytes EF BB BF, a BOM in UTF-8. *)
Definition bomBytes : list byte := [xef; xbb; xbf].

End Reference.

(** ** Shapes of strings and properties of hosts used in the statements *)

(** The string does not begin (resp. end) with a unit of the class. *)
Definition headFree (p : N → bool) (s : jsstring) : Prop :=
  match s with
  | c :: _ => p c = false
  | [] => True
  end.

Fixpoint lastFree (p : N → bool) (s : jsstring) : Prop :=
  match s with
  | [] => True
  | [c] => p c = false
  | _ :: r => lastFree p r
  end.

(** No two neighbours are both in the class. *)
Fixpoint noRuns (p : N → bool) (s : jsstring) : Prop :=
  match s with
  | c :: r =>
      match r with
      | c' :: _ => p c && p c' = false
      | [] => True
      end ∧ noRuns p r
  | [] => True
  end.

(** What [normalizeHeaderValue] returns: units of [[a-z0-9_]] only, no
    two underscores in a row, none at either end. *)
Definition headerNormal (s : jsstring) : Prop :=
  Forall (λ c, isHeaderChar c = true) s
  ∧ noRuns isUnderscore s
  ∧ headFree isUnderscore s
  ∧ lastFree isUnderscore s.

(** Lower-casing leaves a string of [[a-z0-9_]] units as it is. *)
Definition lowerCaseFixesHeaderChars (host : Host) : Prop :=
  ∀ s, Forall (λ c, isHeaderChar c = true) s → toLowerCase host s = s.

(** [enc], which decodes the buffer to [t], is the candidate of [encs]
    with the fewest replacement markers, and the earliest of those. *)
Definition fewestFirst (host : Host) (buffer : list byte)
  (encs : list string) (enc : string) (t : jsstring) : Prop :=
  ∃ pre post,
    encs = pre ++ enc :: post
    ∧ decodeWith host enc buffer = Some t
    ∧ (∀ e t', e ∈ pre → decodeWith host e buffer = Some t' →
         (countReplacements t < countReplacements t')%nat)
    ∧ (∀ e t', e ∈ post → decodeWith host e buffer = Some t' →
         (countReplacements t ≤ countReplacements t')%nat).

(** A candidate decodes the buffer to the empty text only if the UTF-8
    candidate and the default decoder (UTF-8 as well) do: a single-byte
    decoder yields one unit per byte. *)
Definition emptyDecodeIsUtf8 (host : Host) (buffer : list byte) : Prop :=
  ∀ enc, enc ∈ encodingsToTry →
    decodeWith host enc buffer = Some [] →
    decodeWith host "utf-8" buffer = Some []
    ∧ decodeDefault host buffer = Some [].

(** What step 3 does to a row [r] for an expected count [n]: the result
    [r'] has [n] cells and is [r] cut after [n] cells, [r] followed by
    empty strings, or [r]. *)
Definition reconciles (n : nat) (r r' : row) : Prop :=
  length r' = n
  ∧ ((n < length r)%nat ∧ r' = take n r
     ∨ (length r < n)%nat ∧ r' = r ++ replicate (n - length r) []
     ∨ length r = n ∧ r' = r).

(** ** Option settings used in the examples *)

(** [resetOptionsToDefaults] *)
Definition defaultOptions : Options :=
  {| trim := true; removeEmpty := true; fixColumns := true;
     dedupe := false; normalizeHeader := true |}.

Definition allOptions : Options :=
  {| trim := true; removeEmpty := true; fixColumns := true;
     dedupe := true; normalizeHeader := true |}.

Definition dedupeOnly : Options :=
  {| trim := false; removeEmpty := false; fixColumns := false;
     dedupe := true; normalizeHeader := false |}.

(** The state once [handleFileChange] has stored the parsed rows. *)
Definition loadedState (data : list (list cell)) : State :=
  {| encodingUsed := "utf-8"; encodingHasIssues := false;
     originalData := Some data; cleanedData := None;
     rowsBefore := length data; rowsAfter := 0; lastStats := None |}.

(** [state.rowsBefore] is the number of parsed rows, and there is one at
    least: what [handleFileChange] establishes when it stores them. *)
Definition rowsBeforeCounted (st : State) : Prop :=
  ∀ data, originalData st = Some data →
    data ≠ [] ∧ rowsBefore st = length data.

(** Row 0 after step 4. *)
Definition headerOf (host : Host) (options : Options) (first : row) : row :=
  if normalizeHeader options
  then (λ c, normalizeHeaderValue host (CStr c)) <$> first
  else first.

(** ** Grids used in the examples *)

Definition roundTripGrid : list (list cell) :=
  [Reference.cells ["Name"; " Email "]; Reference.cells ["Alice"; "a@x.com"];
   Reference.cells ["  "; "   "]; Reference.cells ["Alice"; "a@x.com"]].

Definition raggedGrid : list (list cell) :=
  [Reference.cells ["a"; "b"; "c"]; Reference.cells ["1"; "2"];
   Reference.cells ["3"; "4"; "5"; "6"]].

Definition blankGrid : list (list cell) :=
  [Reference.cells [" "; ""]; Reference.cells [""]; []].

Definition noToggles : Options :=
  {| trim := false; removeEmpty := false; fixColumns := false;
     dedupe := false; normalizeHeader := false |}.

Definition onlyFixColumns : Options :=
  {| trim := false; removeEmpty := false; fixColumns := true;
     dedupe := false; normalizeHeader := false |}.

(** ** [updatePreviewTable]

    The table the function builds: the text of each header cell, the
    text of each body cell, and the line under the table. *)

Definition ELLIPSIS : N := 0x2026.
Definition DOT : N := 46.
Definition SLASH : N := 47.

(** A string literal of the script that holds ASCII only. *)
Definition literal (s : string) : jsstring :=
  (λ a, Ascii.N_of_ascii a) <$> String.list_ascii_of_string s.

Fixpoint uintUnits (d : Decimal.uint) : jsstring :=
  match d with
  | Decimal.Nil => []
  | Decimal.D0 d => 48 :: uintUnits d
  | Decimal.D1 d => 49 :: uintUnits d
  | Decimal.D2 d => 50 :: uintUnits d
  | Decimal.D3 d => 51 :: uintUnits d
  | Decimal.D4 d => 52 :: uintUnits d
  | Decimal.D5 d => 53 :: uintUnits d
  | Decimal.D6 d => 54 :: uintUnits d
  | Decimal.D7 d => 55 :: uintUnits d
  | Decimal.D8 d => 56 :: uintUnits d
  | Decimal.D9 d => 57 :: uintUnits d
  end.

(** A count inside a template literal: its decimal digits (counts stay
    far below 10^21, where JavaScript would switch notation). *)
Definition numberText (n : nat) : jsstring := uintUnits (Nat.to_uint n).

(** [if (text.length > max) text = text.slice(0, keep) + '…'] *)
Definition ellipsize (max keep : nat) (t : jsstring) : jsstring :=
  if (max <? length t)%nat then take keep t ++ [ELLIPSIS] else t.

(** [row[c]] *)
Definition cellAt (r : list cell) (c : nat) : cell :=
  default CUndefined (r !! c).

(** The text of header cell [c]. *)
Definition headerText (headerRow : list cell) (c : nat) : jsstring :=
  match ellipsize 40 37 (safeCellText (cellAt headerRow c)) with
  | [] => literal "(col " ++ numberText (c + 1) ++ literal ")"
  | t => t
  end.

(** The text of cell [c] of a body row. *)
Definition bodyText (r : list cell) (c : nat) : jsstring :=
  ellipsize 60 57 (safeCellText (cellAt r c)).

Record Preview : Type := {
  previewHead : list jsstring;
  previewBody : list (list jsstring);
  previewMeta : jsstring;
}.

Definition metaText (total maxRows : nat) : jsstring :=
  (if (total <=? maxRows)%nat
   then literal "Showing " ++ numberText total ++ literal " row(s)."
   else literal "Showing " ++ numberText maxRows ++ literal " of "
          ++ numberText total ++ literal " rows (first 50).")
  ++ (if (0 <? total - maxRows)%nat
      then literal " " ++ numberText (total - maxRows)
             ++ literal " row(s) hidden in preview."
      else []).

Definition updatePreviewTable (data : option (list (list cell))) : Preview :=
  match data with
  | None | Some [] =>
      {| previewHead := []; previewBody := [];
         previewMeta := literal "No data to preview." |}
  | Some rows =>
      let maxRows := (50 `min` length rows)%nat in
      let headerRow := default [] (rows !! 0%nat) in
      let colCount := length headerRow in
      {| previewHead := headerText headerRow <$> seq 0 colCount;
         previewBody :=
           (λ r, bodyText (default [] (rows !! r)) <$> seq 0 colCount)
             <$> seq 1 (maxRows - 1);
         previewMeta := metaText (length rows) maxRows |}
  end.

(** [state.cleanedData] as the argument of [updatePreviewTable]. *)
Definition asCells (g : grid) : list (list cell) :=
  (λ r : row, CStr <$> r) <$> g.

(** ** [handleCleanClick]

    The work the handler defers with [setTimeout] is taken to run with
    the state the click found. *)

(** What the handler shows when it is done. *)
Inductive cleanNotice : Type :=
  | PleaseUpload                 (* 'Please upload a CSV file first.' *)
  | CleaningFailed (e : error)   (* the message of the error caught *)
  | CleaningComplete (p : Preview).

Definition handleCleanClick (host : Host) (options : Options) (st : State)
  : cleanNotice * State :=
  match originalData st with
  | None => (PleaseUpload, st)
  | Some _ =>
      match cleanData host options st with
      | (Ok _, st') =>
          (CleaningComplete (updatePreviewTable (asCells <$> cleanedData st')),
           st')
      | (Err e, st') => (CleaningFailed e, st')
      end
  end.

(** ** [downloadCleanedCsv] *)

(** [csvString.replace(/\r\n|\r|\n/g, '\r\n')] *)
Fixpoint toCrlf (s : jsstring) : jsstring :=
  match s with
  | [] => []
  | c :: r =>
      if c =? CR then
        CR :: LF :: match r with
                    | c' :: r' => if c' =? LF then toCrlf r' else toCrlf r
                    | [] => []
                    end
      else if c =? LF then CR :: LF :: toCrlf r
      else c :: toCrlf r
  end.

(** A unit that [[^/.]] matches. *)
Definition isExtensionChar (c : N) : bool := negb ((c =? SLASH) || (c =? DOT)).

(** [name.replace(/\.[^/.]+$/, '')]: the match starts at the first dot
    that is followed, up to the end, by one unit or more outside [/.]. *)
Fixpoint stripExtension (name : jsstring) : jsstring :=
  match name with
  | [] => []
  | c :: r =>
      if (c =? DOT) && negb (bool_decide (r = [])) && forallb isExtensionChar r
      then []
      else c :: stripExtension r
  end.

Record OutputOptions : Type := {
  consistentQuotes : bool;
  normalizeFormat : bool;
  encodingFix : bool;
}.

Inductive downloadError : Type :=
  | NothingToDownload   (* 'Nothing to download. Clean a CSV first.' *)
  | FileInfoMissing.    (* 'Original file information is missing.' *)

(** The parts handed to [Blob] and the name given to the link. *)
Record Download : Type := {
  blobParts : list jsstring;
  downloadName : jsstring;
}.

Section Download.

(** [Papa.unparse(data, { delimiter: ',', newline: '\r\n', quotes,
    quoteChar: '"', escapeChar: '"', header: false })], by [quotes]. *)
Variable unparse : bool → grid → jsstring.

(** [fileName] is [state.file.name], [None] when [state.file] is null.
    The result is the message shown or the download started. *)
Definition downloadCleanedCsv (fileName : option jsstring)
  (output : OutputOptions) (st : State) : downloadError + Download :=
  match cleanedData st with
  | None | Some [] => inl NothingToDownload
  | Some cleaned =>
      match fileName with
      | None => inl FileInfoMissing
      | Some name =>
          let csvString := unparse (consistentQuotes output) cleaned in
          let csvString :=
            if normalizeFormat output then toCrlf csvString else csvString in
          let blobParts :=
            (if encodingFix output then [[BOM]] else []) ++ [csvString] in
          let originalName := stripExtension name in
          inr {| blobParts := blobParts;
                 downloadName :=
                   literal "cleaned_" ++ originalName ++ literal ".csv" |}
      end
  end.

End Download.

(** ** Shapes used in the statements about the added functions *)

(** Every carriage return is followed by a line feed and every line
    feed follows a carriage return. *)
Fixpoint crlfOnly (s : jsstring) : Prop :=
  match s with
  | [] => True
  | c :: r =>
      if c =? CR then
        match r with
        | c' :: r' => c' = LF ∧ crlfOnly r'
        | [] => False
        end
      else c ≠ LF ∧ crlfOnly r
  end.

(** No cell of the row holds the separator of [rowKey]. *)
Definition separatorFree (r : row) : Prop :=
  Forall (Forall (λ c, c ≠ SOH)) r.

Definition noToggle (options : Options) : Prop :=
  trim options = false ∧ removeEmpty options = false
  ∧ fixColumns options = false ∧ dedupe options = false
  ∧ normalizeHeader options = false.

(** ** What becomes of a parsed row in [cleanData]

    The loops of [cleanData] push a row on the next list or move a
    counter: step 2 counts a blank row in [removedEmpty], step 5 counts
    a row whose key it has seen in [duplicatesRemoved], and a row that
    passes both is in [dedupedRows] in the form step 3 gave it. *)
Inductive fate : Type :=
  | Kept (r' : row)
  | CountedEmpty
  | CountedDuplicate.

#[global] Instance fate_eq_dec : EqDecision fate.
Proof. solve_decision. Defined.

Definition keptRow (f : fate) : option row :=
  match f with
  | Kept r' => Some r'
  | _ => None
  end.

(** Step 3 on one row, for an expected count [n]. *)
Definition reconciledTo (options : Options) (n : nat) (r r' : row) : Prop :=
  if fixColumns options then reconciles n r r' else r' = r.

(** The fate of a row [r] that step 2 has pushed: it is kept as step 3
    returns it, or [dedupe] is on and the key of what step 3 returns is
    the key of a row of the cleaned grid [out]. *)
Definition survivorFate (options : Options) (n : nat) (out : grid)
  (r : row) (f : fate) : Prop :=
  match f with
  | Kept r' => reconciledTo options n r r'
  | CountedEmpty => False
  | CountedDuplicate =>
      dedupe options = true
      ∧ ∃ r', reconciledTo options n r r' ∧ rowKey r' ∈ rowKey <$> out
  end.

(** The fate of a row [r] of [data], after the test of step 2. *)
Definition rowFate (options : Options) (n : nat) (out : grid)
  (r : list cell) (f : fate) : Prop :=
  let newRow := cleanCell options <$> r in
  if removeEmpty options && isEmptyRow newRow then f = CountedEmpty
  else survivorFate options n out newRow f.

(** * Properties *)

(** ** Strings *)

Section StringFacts.

Variable p : N → bool.

Local Abbreviation headFree := (headFree p).
Local Abbreviation lastFree := (lastFree p).
Local Abbreviation noRuns := (noRuns p).

Lemma dropWhile_headFree s : headFree (dropWhile p s).
Proof.
  induction s as [|c r IH]; simpl; [done|].
  destruct (p c) eqn:E; [done|]. simpl. done.
Qed.

Lemma dropWhile_fix s : headFree s → dropWhile p s = s.
Proof. destruct s as [|c r]; simpl; [done|]. by intros ->. Qed.

Lemma dropWhile_suffix s : dropWhile p s `suffix_of` s.
Proof.
  induction s as [|c r IH]; simpl; [done|].
  destruct (p c); [by apply suffix_cons_r|done].
Qed.

Lemma dropWhileEnd_nil_inv s :
  dropWhileEnd p s = [] → Forall (λ c, p c = true) s.
Proof.
  induction s as [|c r IH]; simpl; [done|].
  destruct (dropWhileEnd p r) eqn:E; [|done].
  destruct (p c) eqn:Ec; [|done].
  intros _. constructor; auto.
Qed.

Lemma dropWhileEnd_prefix s : dropWhileEnd p s `prefix_of` s.
Proof.
  induction s as [|c r IH]; simpl; [done|].
  destruct (dropWhileEnd p r) as [|d r'] eqn:E.
  - destruct (p c); [apply prefix_nil|]. apply prefix_cons, prefix_nil.
  - by apply prefix_cons.
Qed.

Lemma dropWhileEnd_lastFree s : lastFree (dropWhileEnd p s).
Proof.
  induction s as [|c r IH]; simpl; [done|].
  destruct (dropWhileEnd p r) as [|d r'] eqn:E.
  - destruct (p c) eqn:Ec; simpl; done.
  - simpl in *. done.
Qed.

Lemma dropWhileEnd_fix s : lastFree s → dropWhileEnd p s = s.
Proof.
  induction s as [|c r IH]; simpl; [done|].
  destruct r as [|d r'].
  - simpl. by intros ->.
  - intros H. rewrite IH; done.
Qed.

Lemma dropWhileEnd_headFree s : headFree s → headFree (dropWhileEnd p s).
Proof.
  destruct s as [|c r]; simpl; [done|]. intros Hc.
  destruct (dropWhileEnd p r); [by rewrite Hc|done].
Qed.

Lemma noRuns_cons_inv c s : noRuns (c :: s) → noRuns s.
Proof. simpl. tauto. Qed.

Lemma noRuns_suffix s1 s2 : s1 `suffix_of` s2 → noRuns s2 → noRuns s1.
Proof.
  intros [k ->]. induction k as [|c k IH]; [done|].
  intros H. apply IH. by eapply noRuns_cons_inv.
Qed.

Lemma noRuns_prefix s1 s2 : s1 `prefix_of` s2 → noRuns s2 → noRuns s1.
Proof.
  intros [k ->]. induction s1 as [|c r IH]; [done|].
  simpl. intros [H1 H2]. split; [|by apply IH].
  destruct r; simpl in *; done.
Qed.

Lemma noRuns_free s : Forall (λ c, p c = false) s → noRuns s.
Proof.
  induction 1 as [|c r Hc _ IH]; simpl; [done|].
  split; [|done]. destruct r; [done|]. by rewrite Hc.
Qed.

Lemma replaceRuns_noRuns rep s : noRuns (replaceRuns p rep s).
Proof.
  induction s as [|c r IH]; [done|].
  cbn [replaceRuns]. destruct (p c) eqn:Ec.
  - destruct r as [|d r']; [done|].
    destruct (p d) eqn:Ed; [done|].
    revert IH. cbn [replaceRuns]. rewrite Ed. intros IH.
    split; [|done]. by rewrite Ed, andb_false_r.
  - split; [|done]. destruct (replaceRuns p rep r); [done|]. by rewrite Ec.
Qed.

Lemma replaceRuns_fix rep s :
  noRuns s → Forall (λ c, p c = true → c = rep) s → replaceRuns p rep s = s.
Proof.
  induction s as [|c r IH]; [done|].
  intros [H1 H2] Hall. inversion Hall as [|? ? Hc Hr]; subst.
  cbn [replaceRuns]. destruct (p c) eqn:Ec.
  - destruct r as [|d r']; [by rewrite Hc|].
    simpl in H1. rewrite H1.
    rewrite IH, Hc; done.
  - by rewrite IH.
Qed.

Lemma replaceRuns_Forall (Q : N → Prop) rep s :
  Q rep → Forall Q s → Forall Q (replaceRuns p rep s).
Proof.
  intros Hrep. induction 1 as [|c r Hc Hr IH]; [done|].
  cbn [replaceRuns]. destruct (p c).
  - destruct r as [|d r']; [by repeat constructor|].
    destruct (p d); [done|by constructor].
  - by constructor.
Qed.

End StringFacts.

(** ** [normalizeHeaderValue] *)

Lemma isHeaderChar_not_space c : isHeaderChar c = true → isWhiteSpace c = false.
Proof.
  unfold isHeaderChar. intros H.
  assert (48 ≤ c ≤ 122) as [Hlo Hhi].
  { repeat (apply orb_prop in H as [H|H]);
      try apply andb_prop in H as [H1 H2];
      rewrite ?N.leb_le, ?N.eqb_eq in *; lia. }
  unfold isWhiteSpace.
  replace (c <=? 13) with false by (symmetry; apply N.leb_gt; lia).
  replace (0x2000 <=? c) with false by (symmetry; apply N.leb_gt; lia).
  rewrite andb_false_r. simpl.
  repeat match goal with
         | |- context [c =? ?k] =>
             replace (c =? k) with false by (symmetry; apply N.eqb_neq; lia)
         end.
  done.
Qed.

Lemma isUnderscore_eq c : isUnderscore c = true → c = UNDERSCORE.
Proof. unfold isUnderscore, UNDERSCORE. by rewrite N.eqb_eq. Qed.

Lemma free_headFree p s : Forall (λ c, p c = false) s → headFree p s.
Proof. by destruct 1. Qed.

Lemma free_lastFree p s : Forall (λ c, p c = false) s → lastFree p s.
Proof.
  induction 1 as [|c r Hc Hr IH]; [done|]. simpl. by destruct r.
Qed.

Lemma replaceNonHeaderChars_Forall s :
  Forall (λ c, isHeaderChar c = true) (replaceNonHeaderChars s).
Proof.
  unfold replaceNonHeaderChars. apply Forall_fmap, Forall_true.
  intros c. simpl. by destruct (isHeaderChar c) eqn:E.
Qed.

Lemma replaceNonHeaderChars_fix s :
  Forall (λ c, isHeaderChar c = true) s → replaceNonHeaderChars s = s.
Proof.
  unfold replaceNonHeaderChars.
  induction 1 as [|c r Hc Hr IH]; [done|].
  rewrite fmap_cons, IH, Hc. done.
Qed.

Lemma stripUnderscores_Forall (Q : N → Prop) s :
  Forall Q s → Forall Q (stripUnderscores s).
Proof.
  intros H. unfold stripUnderscores.
  destruct (dropWhileEnd_prefix isUnderscore (dropWhile isUnderscore s))
    as [k1 E1].
  destruct (dropWhile_suffix isUnderscore s) as [k2 E2].
  rewrite E2, E1 in H. by apply Forall_app in H as [_ [H _]%Forall_app].
Qed.

Lemma normalizeHeaderValue_headerNormal host value :
  headerNormal (normalizeHeaderValue host value).
Proof.
  unfold normalizeHeaderValue.
  destruct (toLowerCase host (str_trim (safeCellText value))) as [|c raw];
    [by repeat split|].
  set (s := replaceRuns isUnderscore UNDERSCORE _).
  assert (Forall (λ c, isHeaderChar c = true) s) as Hall.
  { apply replaceRuns_Forall; [done|]. apply replaceNonHeaderChars_Forall. }
  assert (noRuns isUnderscore s) as Hruns by apply replaceRuns_noRuns.
  unfold headerNormal, stripUnderscores. split_and!.
  - by apply stripUnderscores_Forall.
  - eapply noRuns_prefix; [apply dropWhileEnd_prefix|].
    eapply noRuns_suffix; [apply dropWhile_suffix|done].
  - apply dropWhileEnd_headFree, dropWhile_headFree.
  - apply dropWhileEnd_lastFree.
Qed.

Lemma normalizeHeaderValue_fix host s :
  lowerCaseFixesHeaderChars host →
  headerNormal s →
  normalizeHeaderValue host (CStr s) = s.
Proof.
  intros Hlow (Hall & Hruns & Hhead & Hlast).
  assert (Forall (λ c, isWhiteSpace c = false) s) as Hws.
  { eapply Forall_impl; [exact Hall|]. apply isHeaderChar_not_space. }
  unfold normalizeHeaderValue, str_trim. simpl.
  rewrite (dropWhile_fix _ s) by by apply free_headFree.
  rewrite (dropWhileEnd_fix _ s) by by apply free_lastFree.
  rewrite Hlow by done.
  destruct s as [|c r] eqn:Es; [done|]. rewrite <- Es in *. clear Es.
  rewrite (replaceRuns_fix isWhiteSpace).
  - rewrite replaceNonHeaderChars_fix by done.
    rewrite (replaceRuns_fix isUnderscore).
    + unfold stripUnderscores.
      rewrite (dropWhile_fix _ s) by done.
      by rewrite (dropWhileEnd_fix _ s).
    + done.
    + apply Forall_true. intros ?. apply isUnderscore_eq.
  - by apply noRuns_free.
  - eapply Forall_impl; [exact Hws|]. simpl. congruence.
Qed.

(** C8. Header normalization is idempotent: on a host whose lower-casing
    leaves strings over [a-z0-9_] unchanged, normalizing the result of
    [normalizeHeaderValue] (for a string, [null] or [undefined] cell)
    returns it unchanged. *)
Theorem normalizeHeaderValue_idempotent host (x : cell) :
  lowerCaseFixesHeaderChars host →
  normalizeHeaderValue host (CStr (normalizeHeaderValue host x))
  = normalizeHeaderValue host x.
Proof.
  intros Hlow. apply normalizeHeaderValue_fix; [done|].
  apply normalizeHeaderValue_headerNormal.
Qed.

(** ** The encoding resolver *)

Section Resolver.

Variable host : Host.
Variable buffer : list byte.

Local Abbreviation markers t := (Finite (countReplacements t)).

Lemma tryEncodings_keep encs best :
  (∀ e t, e ∈ encs → decodeWith host e buffer = Some t →
     num_lt (markers t) (replacementCount best) = false) →
  foldl (tryEncoding host buffer) best encs = best.
Proof.
  induction encs as [|e encs IH]; intros H; [done|].
  simpl. assert (tryEncoding host buffer best e = best) as ->.
  { unfold tryEncoding. destruct (decodeWith host e buffer) as [t|] eqn:E;
      [|done].
    rewrite (H e t); [done|left|done]. }
  apply IH. intros e' t' ??. apply (H e' t'); [by right|done].
Qed.

Lemma tryEncodings_origin encs best :
  foldl (tryEncoding host buffer) best encs = best
  ∨ ∃ e t, e ∈ encs ∧ decodeWith host e buffer = Some t
           ∧ foldl (tryEncoding host buffer) best encs
             = {| text := t; encoding := e; replacementCount := markers t |}.
Proof.
  revert best. induction encs as [|e encs IH]; intros best; [by left|].
  simpl. destruct (IH (tryEncoding host buffer best e))
    as [->|(e' & t' & ? & ? & ->)].
  - unfold tryEncoding.
    destruct (decodeWith host e buffer) as [t|] eqn:E; [|by left].
    destruct (num_lt _ _); [|by left].
    right. exists e, t. split_and!; [left|done|done].
  - right. exists e', t'. split_and!; [by right|done|done].
Qed.

Lemma tryEncodings_fewestFirst encs enc t :
  fewestFirst host buffer encs enc t →
  tryEncodings host buffer encs
  = {| text := t; encoding := enc; replacementCount := markers t |}.
Proof.
  intros (pre & post & -> & Hdec & Hpre & Hpost).
  unfold tryEncodings. rewrite foldl_app. simpl.
  assert (tryEncoding host buffer
            (foldl (tryEncoding host buffer) initialBest pre) enc
          = {| text := t; encoding := enc; replacementCount := markers t |})
    as ->.
  { destruct (tryEncodings_origin pre initialBest)
      as [->|(e' & t' & Hin & Hd & ->)];
      unfold tryEncoding; rewrite Hdec; [done|].
    simpl. specialize (Hpre e' t' Hin Hd).
    by apply Nat.ltb_lt in Hpre as ->. }
  apply tryEncodings_keep. intros e t' Hin Hd. simpl.
  apply Nat.ltb_ge. by eapply Hpost.
Qed.

Lemma fewestFirst_exists encs :
  (∃ e, e ∈ encs ∧ is_Some (decodeWith host e buffer)) →
  ∃ enc t, fewestFirst host buffer encs enc t.
Proof.
  induction encs as [|e encs IH]; intros (e0 & Hin & Hsome).
  { by apply elem_of_nil in Hin. }
  destruct (decide (Exists (λ e1, is_Some (decodeWith host e1 buffer)) encs))
    as [Hex|Hno]; rewrite Exists_exists in *.
  - destruct (IH Hex) as (enc & t & pre & post & -> & Hdec & Hpre & Hpost).
    destruct (decodeWith host e buffer) as [te|] eqn:Ee.
    + destruct (decide (countReplacements te ≤ countReplacements t)%nat).
      * exists e, te, [], (pre ++ enc :: post). split_and!; [done|done|..].
        { intros ?? []%elem_of_nil. }
        intros e' t' [Hi|[->|Hi]%elem_of_cons]%elem_of_app Hd.
        -- specialize (Hpre _ _ Hi Hd). lia.
        -- congruence.
        -- specialize (Hpost _ _ Hi Hd). lia.
      * exists enc, t, (e :: pre), post. split_and!; [done|done|..|done].
        intros e' t' [->|Hi]%elem_of_cons Hd; [|by eapply Hpre].
        assert (t' = te) as -> by congruence. lia.
    + exists enc, t, (e :: pre), post. split_and!; [done|done|..|done].
      intros e' t' [->|Hi]%elem_of_cons Hd; [congruence|by eapply Hpre].
  - apply elem_of_cons in Hin as [->|Hin]; [|destruct Hno; eauto].
    destruct Hsome as [t Ht]. exists e, t, [], encs.
    split_and!; [done|done|..].
    + intros ?? []%elem_of_nil.
    + intros e' t' Hi Hd. destruct Hno. exists e'. by rewrite Hd.
Qed.

Lemma fewestFirst_empty_utf8 enc :
  emptyDecodeIsUtf8 host buffer →
  fewestFirst host buffer encodingsToTry enc [] →
  enc = "utf-8"%string ∧ decodeDefault host buffer = Some [].
Proof.
  intros Hempty (pre & post & Hsplit & Hdec & Hpre & _).
  destruct (Hempty enc) as [Hutf Hdef]; [|done|].
  { rewrite Hsplit. apply elem_of_app. right. left. }
  split; [|done]. destruct pre as [|e pre].
  - by inversion Hsplit.
  - inversion Hsplit; subst e.
    specialize (Hpre "utf-8"%string [] ltac:(left) Hutf).
    simpl in Hpre. lia.
Qed.

(** Without [TextDecoder] no candidate is tried. *)
Lemma readFile_without_TextDecoder :
  hasTextDecoder host = false →
  readFileWithBestEncoding host buffer
  = match readAsText host buffer with
    | Some t => Ok {| text := t; encoding := "utf-8";
                      replacementCount := Finite 0 |}
    | None => Err ReadError
    end.
Proof. intros H. unfold readFileWithBestEncoding. by rewrite H. Qed.

(** C3. On a host that has [TextDecoder] and on which a candidate
    decodes the buffer to the empty text only if UTF-8 does, the
    resolver returns the candidate with the fewest replacement markers,
    the earliest in the order utf-8, windows-1252, iso-8859-1 among
    those (its text less one leading BOM); in particular a buffer that
    UTF-8 decodes without a marker is reported as utf-8.  There is such
    a candidate as soon as one candidate decodes the buffer. *)
Theorem resolver_selects_fewest_first :
  hasTextDecoder host = true →
  emptyDecodeIsUtf8 host buffer →
  (∀ enc t,
     fewestFirst host buffer encodingsToTry enc t →
     readFileWithBestEncoding host buffer
     = Ok {| text := stripLeadingBOM t; encoding := enc;
             replacementCount := markers t |})
  ∧ (∀ t,
       decodeWith host "utf-8" buffer = Some t →
       countReplacements t = 0%nat →
       readFileWithBestEncoding host buffer
       = Ok {| text := stripLeadingBOM t; encoding := "utf-8";
               replacementCount := Finite 0 |})
  ∧ ((∃ e, e ∈ encodingsToTry ∧ is_Some (decodeWith host e buffer)) →
     ∃ enc t, fewestFirst host buffer encodingsToTry enc t).
Proof.
  intros Hdec Hempty.
  assert (∀ enc t,
     fewestFirst host buffer encodingsToTry enc t →
     readFileWithBestEncoding host buffer
     = Ok {| text := stripLeadingBOM t; encoding := enc;
             replacementCount := markers t |}) as Hmain.
  { intros enc t Hsel. unfold readFileWithBestEncoding, selectBest.
    rewrite Hdec, (tryEncodings_fewestFirst _ _ _ Hsel).
    unfold fallbackIfEmpty. simpl. destruct t as [|c t]; [|done].
    destruct (fewestFirst_empty_utf8 _ Hempty Hsel) as [-> ->]. done. }
  split_and!; [done| |apply fewestFirst_exists]. intros t Ht Hzero.
  rewrite (Hmain "utf-8"%string t); [by rewrite Hzero|].
  exists [], ["windows-1252"; "iso-8859-1"]%string.
  split_and!; [done|done|..].
  - intros ?? []%elem_of_nil.
  - intros. lia.
Qed.

(** C7, amended. Take two buffers for which the resolver settles on a
    text [t] and on the same text behind one BOM.  The text returned
    for the second is [t]: one unit is dropped, whatever [t] begins
    with.  The text returned for the first is [t] too provided [t]
    does not itself begin with a BOM. *)
Theorem resolver_strips_one_leading_bom (buffer' : list byte)
    (best best' : Best) (t : jsstring) :
  hasTextDecoder host = true →
  selectBest host buffer = Ok best → text best = t →
  selectBest host buffer' = Ok best' → text best' = BOM :: t →
  (text <$> readFileWithBestEncoding host buffer') = Ok t
  ∧ (head t ≠ Some BOM →
     (text <$> readFileWithBestEncoding host buffer)
     = (text <$> readFileWithBestEncoding host buffer')).
Proof.
  intros Hdec Hsel Ht Hsel' Ht'. unfold readFileWithBestEncoding.
  rewrite Hdec, Hsel, Hsel'. simpl. rewrite Ht, Ht'. simpl. split; [done|].
  intros Hhead. f_equal. destruct t as [|c r]; [done|].
  simpl. destruct (c =? BOM) eqn:E; [|done].
  apply N.eqb_eq in E. simpl in Hhead. congruence.
Qed.

End Resolver.

(** ** [cleanData]: the steps *)

Section Steps.

Variable options : Options.

(** Step 2 accounts for every row: it is pushed or counted. *)
Lemma cleanRow_foldl_length data : ∀ rows stats,
  (length (foldl (cleanRow options) (rows, stats) data).1
   + removedEmpty (foldl (cleanRow options) (rows, stats) data).2
   = length rows + removedEmpty stats + length data)%nat
  ∧ duplicatesRemoved (foldl (cleanRow options) (rows, stats) data).2
    = duplicatesRemoved stats
  ∧ trimmedColumns (foldl (cleanRow options) (rows, stats) data).2
    = trimmedColumns stats
  ∧ paddedColumns (foldl (cleanRow options) (rows, stats) data).2
    = paddedColumns stats.
Proof.
  induction data as [|r data IH]; intros rows stats; cbn [foldl].
  { simpl. split_and!; [lia|done..]. }
  destruct (removeEmpty options && isEmptyRow (cleanCell options <$> r))
    eqn:E.
  - assert (cleanRow options (rows, stats) r
            = (rows, {| removedEmpty := S (removedEmpty stats);
                        duplicatesRemoved := duplicatesRemoved stats;
                        trimmedColumns := trimmedColumns stats;
                        paddedColumns := paddedColumns stats |})) as ->.
    { unfold cleanRow. by rewrite E. }
    destruct (IH rows
      {| removedEmpty := S (removedEmpty stats);
         duplicatesRemoved := duplicatesRemoved stats;
         trimmedColumns := trimmedColumns stats;
         paddedColumns := paddedColumns stats |}) as (H1 & H2 & H3 & H4).
    simpl in *. split_and!; [lia|done..].
  - assert (cleanRow options (rows, stats) r
            = (rows ++ [cleanCell options <$> r], stats)) as ->.
    { unfold cleanRow. by rewrite E. }
    destruct (IH (rows ++ [cleanCell options <$> r]) stats)
      as (H1 & H2 & H3 & H4).
    rewrite length_app in H1. simpl in *. split_and!; [lia|done..].
Qed.

Lemma cleanRows_length data stats cleanedRows stats' :
  cleanRows options data stats = (cleanedRows, stats') →
  (length cleanedRows + removedEmpty stats'
   = removedEmpty stats + length data)%nat
  ∧ duplicatesRemoved stats' = duplicatesRemoved stats
  ∧ trimmedColumns stats' = trimmedColumns stats
  ∧ paddedColumns stats' = paddedColumns stats.
Proof.
  intros E. pose proof (cleanRow_foldl_length data [] stats) as H.
  unfold cleanRows in E. rewrite E in H. done.
Qed.

Lemma fixRow_foldl n rows : ∀ acc stats,
  ∃ out,
    foldl (fixRow n) (acc, stats) rows
    = (acc ++ out,
       {| removedEmpty := removedEmpty stats;
          duplicatesRemoved := duplicatesRemoved stats;
          trimmedColumns :=
            trimmedColumns stats
            + length (filter (λ r, (n < length r)%nat) rows);
          paddedColumns :=
            paddedColumns stats
            + length (filter (λ r, (length r < n)%nat) rows) |})
    ∧ Forall2 (reconciles n) rows out.
Proof.
  induction rows as [|r rows IH]; intros acc stats.
  { exists []. split; [|constructor]. simpl. rewrite app_nil_r.
    destruct stats; simpl. f_equal. f_equal; lia. }
  cbn [foldl]. unfold fixRow at 2.
  rewrite !filter_cons.
  destruct (Z.of_nat (length r) - Z.of_nat n =? 0)%Z eqn:E0.
  - apply Z.eqb_eq in E0.
    destruct (IH (acc ++ [r]) stats) as (out & -> & Hout).
    exists (r :: out). rewrite <- app_assoc. simpl.
    rewrite !decide_False by lia.
    split; [done|]. constructor; [|done].
    split; [lia|]. right. right. split; [lia|done].
  - apply Z.eqb_neq in E0.
    destruct (0 <? Z.of_nat (length r) - Z.of_nat n)%Z eqn:E1.
    + apply Z.ltb_lt in E1.
      destruct (IH (acc ++ [take n r])
        {| removedEmpty := removedEmpty stats;
           duplicatesRemoved := duplicatesRemoved stats;
           trimmedColumns := S (trimmedColumns stats);
           paddedColumns := paddedColumns stats |}) as (out & -> & Hout).
      exists (take n r :: out). rewrite <- app_assoc. simpl.
      rewrite decide_True by lia. rewrite decide_False by lia.
      split; [f_equal; f_equal; simpl; lia|]. constructor; [|done].
      split; [rewrite length_take; lia|]. left. split; [lia|done].
    + apply Z.ltb_ge in E1.
      destruct (IH (acc ++ [r ++ replicate
                               (Z.to_nat (Z.abs (Z.of_nat (length r)
                                                 - Z.of_nat n))) []])
        {| removedEmpty := removedEmpty stats;
           duplicatesRemoved := duplicatesRemoved stats;
           trimmedColumns := trimmedColumns stats;
           paddedColumns := S (paddedColumns stats) |}) as (out & -> & Hout).
      replace (Z.to_nat (Z.abs (Z.of_nat (length r) - Z.of_nat n)))
        with (n - length r)%nat in * by lia.
      exists ((r ++ replicate (n - length r)%nat []) :: out).
      rewrite <- app_assoc. simpl.
      rewrite decide_False by lia. rewrite decide_True by lia.
      split; [f_equal; f_equal; simpl; lia|]. constructor; [|done].
      split; [rewrite length_app, length_replicate; lia|].
      right. left. split; [lia|done].
Qed.

Lemma filter_length_trichotomy (n : nat) (rows : grid) :
  (length (filter (λ r, (n < length r)%nat) rows)
   + length (filter (λ r, (length r < n)%nat) rows)
   + length (filter (λ r, length r = n) rows)
   = length rows)%nat.
Proof.
  induction rows as [|r rows IH]; [done|].
  rewrite !filter_cons.
  repeat case_decide; simpl; lia.
Qed.

(** C4. With [fixColumns] on and a first surviving row [first], step 3
    returns rows that all have the length of [first]; row by row, a
    longer row is cut to its first cells, a shorter one gets empty
    strings appended, a row of that length is kept as it is;
    [trimmedColumns] grows by the number of longer rows and
    [paddedColumns] by the number of shorter ones, and together with
    the rows left unchanged they add up to the number of rows. *)
Theorem fixColumnCounts_reconciles (cleanedRows : grid) (first : row)
    (stats : Stats) :
  fixColumns options = true →
  cleanedRows !! 0%nat = Some first →
  ∃ finalRows stats',
    fixColumnCounts options cleanedRows stats = Ok (finalRows, stats')
    ∧ Forall (λ r', length r' = length first) finalRows
    ∧ Forall2 (reconciles (length first)) cleanedRows finalRows
    ∧ trimmedColumns stats'
      = (trimmedColumns stats
         + length (filter (λ r, (length first < length r)%nat) cleanedRows))%nat
    ∧ paddedColumns stats'
      = (paddedColumns stats
         + length (filter (λ r, (length r < length first)%nat) cleanedRows))%nat
    ∧ ((trimmedColumns stats' - trimmedColumns stats)
       + (paddedColumns stats' - paddedColumns stats)
       + length (filter (λ r, length r = length first) cleanedRows)
       = length cleanedRows)%nat
    ∧ removedEmpty stats' = removedEmpty stats
    ∧ duplicatesRemoved stats' = duplicatesRemoved stats.
Proof.
  intros Hfix Hfirst. unfold fixColumnCounts. rewrite Hfix, Hfirst.
  destruct (fixRow_foldl (length first) cleanedRows [] stats)
    as (out & -> & Hout).
  eexists _, _. split; [done|]. simpl. split_and!; try done.
  - clear -Hout. induction Hout as [|r r' ?? [H _]]; by constructor.
  - pose proof (filter_length_trichotomy (length first) cleanedRows). lia.
Qed.

(** Step 5: the loop from an arbitrary point on. *)
Lemma dedupeRow_foldl rest : ∀ seen deduped stats,
  ∃ kept stats',
    foldl dedupeRow (seen, deduped, stats) rest
    = (seen ∪ list_to_set (rowKey <$> rest), deduped ++ kept, stats')
    ∧ sublist kept rest
    ∧ (∀ r, r ∈ kept → rowKey r ∉ seen)
    ∧ NoDup (rowKey <$> kept)
    ∧ (duplicatesRemoved stats' + length kept
       = duplicatesRemoved stats + length rest)%nat
    ∧ removedEmpty stats' = removedEmpty stats
    ∧ trimmedColumns stats' = trimmedColumns stats
    ∧ paddedColumns stats' = paddedColumns stats.
Proof.
  induction rest as [|r rest IH]; intros seen deduped stats.
  { exists [], stats. simpl. rewrite app_nil_r, union_empty_r_L.
    split_and!; try done; [by intros ? ?%elem_of_nil|constructor]. }
  cbn [foldl]. unfold dedupeRow at 2. case_bool_decide as Hseen.
  - destruct (IH seen deduped
      {| removedEmpty := removedEmpty stats;
         duplicatesRemoved := S (duplicatesRemoved stats);
         trimmedColumns := trimmedColumns stats;
         paddedColumns := paddedColumns stats |})
      as (kept & stats' & -> & Hsub & Hfresh & Hnodup & Hcount & Hre & Htr & Hpa).
    exists kept, stats'. simpl in *. split_and!; try done; [|by constructor|lia].
    f_equal. f_equal. set_solver.
  - destruct (IH ({[rowKey r]} ∪ seen) (deduped ++ [r]) stats)
      as (kept & stats' & -> & Hsub & Hfresh & Hnodup & Hcount & Hre & Htr & Hpa).
    exists (r :: kept), stats'. simpl in *.
    rewrite <- app_assoc. simpl. split_and!; try done.
    + f_equal. f_equal. set_solver.
    + by constructor.
    + intros r' [->|Hin]%elem_of_cons; [done|].
      specialize (Hfresh r' Hin). set_solver.
    + constructor; [|done]. intros (r' & Hkey & Hin)%list_elem_of_fmap.
      specialize (Hfresh r' Hin). set_solver.
    + lia.
Qed.

(** The counters do not steer the loop: two runs from the same set and
    the same rows differ by what the counters held at the start. *)
Lemma dedupeRow_foldl_stats rest : ∀ seen deduped t1 t2,
  (foldl dedupeRow (seen, deduped, t1) rest).1
  = (foldl dedupeRow (seen, deduped, t2) rest).1
  ∧ (duplicatesRemoved (foldl dedupeRow (seen, deduped, t1) rest).2
     + duplicatesRemoved t2
     = duplicatesRemoved (foldl dedupeRow (seen, deduped, t2) rest).2
       + duplicatesRemoved t1)%nat.
Proof.
  induction rest as [|r rest IH]; intros seen deduped t1 t2; cbn [foldl].
  { simpl. split; [done|lia]. }
  unfold dedupeRow at 2 4 6 8. case_bool_decide.
  - destruct (IH seen deduped
      {| removedEmpty := removedEmpty t1;
         duplicatesRemoved := S (duplicatesRemoved t1);
         trimmedColumns := trimmedColumns t1;
         paddedColumns := paddedColumns t1 |}
      {| removedEmpty := removedEmpty t2;
         duplicatesRemoved := S (duplicatesRemoved t2);
         trimmedColumns := trimmedColumns t2;
         paddedColumns := paddedColumns t2 |}) as [H1 H2].
    simpl in *. split; [done|lia].
  - apply IH.
Qed.

Lemma dedupeLoop_spec header rest stats :
  ∃ kept stats',
    dedupeLoop header rest stats
    = ({[rowKey header]} ∪ list_to_set (rowKey <$> rest),
       header :: kept, stats')
    ∧ sublist kept rest
    ∧ (∀ r, r ∈ kept → rowKey r ≠ rowKey header)
    ∧ NoDup (rowKey <$> header :: kept)
    ∧ (duplicatesRemoved stats' + length kept
       = duplicatesRemoved stats + length rest)%nat
    ∧ removedEmpty stats' = removedEmpty stats
    ∧ trimmedColumns stats' = trimmedColumns stats
    ∧ paddedColumns stats' = paddedColumns stats.
Proof.
  unfold dedupeLoop.
  destruct (dedupeRow_foldl rest {[rowKey header]} [header] stats)
    as (kept & stats' & -> & Hsub & Hfresh & Hnodup & Hcount & Hre & Htr & Hpa).
  exists kept, stats'. split_and!; try done.
  - intros r Hin. specialize (Hfresh r Hin). set_solver.
  - rewrite fmap_cons. constructor; [|done].
    intros (r & Hkey & Hin)%list_elem_of_fmap.
    specialize (Hfresh r Hin). set_solver.
Qed.

Lemma dedupeRows_on header rest stats :
  dedupe options = true →
  dedupeRows options (header :: rest) stats
  = Ok ((dedupeLoop header rest stats).1.2, (dedupeLoop header rest stats).2).
Proof.
  intros Hon. unfold dedupeRows. rewrite Hon.
  cbn [lookup list_lookup drop]. rewrite drop_0.
  by destruct (dedupeLoop header rest stats) as [[??]?].
Qed.

(** A row whose key the loop has seen, at whatever place it stands, only
    moves the counter. *)
Lemma dedupeLoop_skip header pre r post stats :
  rowKey r ∈ rowKey <$> header :: pre →
  (dedupeLoop header (pre ++ r :: post) stats).1.2
  = (dedupeLoop header (pre ++ post) stats).1.2
  ∧ duplicatesRemoved (dedupeLoop header (pre ++ r :: post) stats).2
    = S (duplicatesRemoved (dedupeLoop header (pre ++ post) stats).2).
Proof.
  intros Hseen. unfold dedupeLoop. rewrite !foldl_app. cbn [foldl].
  destruct (dedupeRow_foldl pre {[rowKey header]} [header] stats)
    as (k1 & s1 & -> & _).
  unfold dedupeRow at 2 5. rewrite bool_decide_true.
  2:{ rewrite fmap_cons in Hseen. set_solver. }
  match goal with
  | |- context [foldl dedupeRow (?seen, ?deduped, ?t1) post] =>
      destruct (dedupeRow_foldl_stats post seen deduped t1 s1) as [H1 H2]
  end.
  simpl in *. split; [by rewrite H1|lia].
Qed.

(** C1. With [dedupe] on, the key of the header is in the set of seen
    keys from the start of the scan of rows 1..end to its end.  The
    output of step 5 is the header followed by rows none of which equals
    the header or shares its key: every data row equal to row 0 is
    dropped and counted in [duplicatesRemoved].
    This holds wherever such a row stands, the first one included:
    deleting it from the input changes the output in nothing but the
    counter, which is one less. *)
Theorem dedupe_drops_rows_equal_to_header (header : row) (rest : grid)
    (stats : Stats) :
  dedupe options = true →
  ∃ kept stats',
    dedupeRows options (header :: rest) stats = Ok (header :: kept, stats')
    ∧ (∀ pre, rowKey header ∈ (dedupeLoop header pre stats).1.1)
    ∧ (header ∉ kept)
    ∧ (∀ r, r ∈ kept → rowKey r ≠ rowKey header)
    ∧ (duplicatesRemoved stats' + length kept
       = duplicatesRemoved stats + length rest)%nat
    ∧ (duplicatesRemoved stats + length (filter (λ r, r = header) rest)
       ≤ duplicatesRemoved stats')%nat
    ∧ (∀ pre post,
         rest = pre ++ header :: post →
         ∃ stats0,
           dedupeRows options (header :: pre ++ post) stats
           = Ok (header :: kept, stats0)
           ∧ duplicatesRemoved stats' = S (duplicatesRemoved stats0)).
Proof.
  intros Hon.
  destruct (dedupeLoop_spec header rest stats)
    as (kept & stats' & E & Hsub & Hfresh & _ & Hcount & _).
  exists kept, stats'. rewrite dedupeRows_on, E by done. simpl.
  assert (header ∉ kept) as Hnot.
  { intros Hin. by apply (Hfresh header Hin). }
  split_and!; try done.
  - intros pre. destruct (dedupeLoop_spec header pre stats)
      as (? & ? & -> & _). set_solver.
  - assert (length kept + length (filter (λ r, r = header) rest)
            ≤ length rest)%nat; [|lia].
    clear -Hsub Hnot. induction Hsub as [|r k l Hs IH|r k l Hs IH]; [done|..].
    + rewrite filter_cons. apply not_elem_of_cons in Hnot as [Hne Hnot].
      rewrite decide_False by done. simpl. specialize (IH Hnot). lia.
    + rewrite filter_cons. specialize (IH Hnot).
      case_decide; simpl; lia.
  - intros pre post ->.
    destruct (dedupeLoop_skip header pre header post stats) as [H1 H2].
    { rewrite fmap_cons. left. }
    rewrite E in H1, H2. simpl in H1, H2.
    exists (dedupeLoop header (pre ++ post) stats).2.
    rewrite dedupeRows_on by done. by rewrite <- H1.
Qed.

(** C2, amended. With [dedupe] on, step 5 is a stable filter of rows
    1..end and [duplicatesRemoved] grows by the number of rows dropped.
    The row at a given place is kept exactly when its key differs from
    the key of the header and from the keys of all rows before it; no
    row after it that has its key (so no later copy of it) is kept.
    Hence the first occurrence of a row is kept unless its key is the
    header's or an earlier row's. *)
Theorem dedupe_keeps_first_of_each_key (header : row) (rest : grid)
    (stats : Stats) :
  dedupe options = true →
  ∃ kept stats',
    dedupeRows options (header :: rest) stats = Ok (header :: kept, stats')
    ∧ sublist kept rest
    ∧ (duplicatesRemoved stats' + length kept
       = duplicatesRemoved stats + length rest)%nat
    ∧ NoDup (rowKey <$> header :: kept)
    ∧ (∀ pre r post,
         rest = pre ++ r :: post →
         ∃ k1 k2,
           sublist k1 pre ∧ sublist k2 post
           ∧ (∀ r', r' ∈ k2 → rowKey r' ≠ rowKey r)
           ∧ kept = k1 ++ (if decide (rowKey r ∈ rowKey <$> header :: pre)
                           then [] else [r]) ++ k2).
Proof.
  intros Hon.
  destruct (dedupeLoop_spec header rest stats)
    as (kept & stats' & E & Hsub & _ & Hnodup & Hcount & _).
  exists kept, stats'. rewrite dedupeRows_on, E by done. simpl.
  split_and!; try done.
  intros pre r post ->. revert E. unfold dedupeLoop.
  rewrite foldl_app. cbn [foldl].
  destruct (dedupeRow_foldl pre {[rowKey header]} [header] stats)
    as (k1 & s1 & -> & Hsub1 & _).
  assert (rowKey r ∈ rowKey <$> header :: pre
          ↔ rowKey r ∈ ({[rowKey header]} ∪ list_to_set (rowKey <$> pre)
                         : gset jsstring)) as Hiff.
  { rewrite fmap_cons. set_solver. }
  unfold dedupeRow at 2. case_bool_decide as Hseen.
  - match goal with
    | |- context [foldl dedupeRow (?seen, ?deduped, ?t) post] =>
        destruct (dedupeRow_foldl post seen deduped t)
          as (k2 & s2 & -> & Hsub2 & Hfresh2 & _)
    end.
    intros [= _ Hk _]. exists k1, k2.
    rewrite decide_True by by apply Hiff. simpl. split_and!; try done.
    intros r' Hin Heq. apply (Hfresh2 r' Hin). by rewrite Heq.
  - match goal with
    | |- context [foldl dedupeRow (?seen, ?deduped, ?t) post] =>
        destruct (dedupeRow_foldl post seen deduped t)
          as (k2 & s2 & -> & Hsub2 & Hfresh2 & _)
    end.
    rewrite <- !app_assoc. intros [= _ Hk _]. exists k1, k2.
    rewrite decide_False by by rewrite Hiff. simpl. split_and!; try done.
    intros r' Hin Heq. apply (Hfresh2 r' Hin). rewrite Heq. set_solver.
Qed.

End Steps.

(** C2 as stated fails.  In the grid [["a"],["a"],["a"]] the row ["a"]
    occurs among rows 1..end and none of its occurrences is kept; in
    [["h"],["a\u0001b"],["a","b"]] the only occurrence of ["a","b"] is
    dropped. *)
Lemma dedupe_first_occurrence_dropped :
  ((fst <$> dedupeRows dedupeOnly [[[97]]; [[97]]; [[97]]] zeroStats)
   = Ok [[[97]]]
   ∧ ([[97]] : row) ∈ ([[[97]]; [[97]]] : grid)
   ∧ (([[97]] : row) ∉ drop 1 ([[[97]]] : grid)))
  ∧ ((fst <$> dedupeRows dedupeOnly
                [[[104]]; [[97; 1; 98]]; [[97]; [98]]] zeroStats)
     = Ok [[[104]]; [[97; 1; 98]]]
     ∧ ([[97]; [98]] : row) ∈ ([[[97; 1; 98]]; [[97]; [98]]] : grid)
     ∧ (([[97]; [98]] : row) ∉ ([[[97; 1; 98]]] : grid))
     ∧ (([[97]; [98]] : row) ∉ drop 1 ([[[104]]; [[97; 1; 98]]] : grid))).
Proof.
  split_and!; try (by vm_compute); try (by left); try (by right; left).
  - simpl. by intros ?%elem_of_nil.
  - by intros [[=]|?%elem_of_nil]%elem_of_cons.
  - simpl. by intros [[=]|?%elem_of_nil]%elem_of_cons.
Qed.

(** ** [cleanData] as a whole *)

Lemma cleanData_eq host options st :
  cleanData host options st
  = match originalData st with
    | None | Some [] => (Err NoCsvData, st)
    | Some original =>
        match cleanRows options (stripBomResidue original) zeroStats with
        | ([], _) => (Err AllRowsRemoved, st)
        | (cleanedRows, stats) =>
            match finishRows host options cleanedRows stats with
            | Ok (finalRows, stats') =>
                (Ok tt,
                 {| encodingUsed := encodingUsed st;
                    encodingHasIssues := encodingHasIssues st;
                    originalData := originalData st;
                    cleanedData := Some finalRows;
                    rowsBefore := rowsBefore st;
                    rowsAfter := length finalRows;
                    lastStats := Some stats' |})
            | Err e => (Err e, st)
            end
        end
    end.
Proof.
  unfold cleanData, mbind, M_bind, get. simpl.
  destruct (originalData st) as [[|r0 original]|] eqn:Horig; [done| |done].
  destruct (cleanRows _ _ _) as [[|first others] stats]; [done|].
  unfold lift. destruct (finishRows _ _ _ _) as [[finalRows stats']|e];
    [|done].
  unfold storeCleaned, modify. by rewrite Horig.
Qed.

Lemma cleanRows_options_ext options options' data stats :
  trim options' = trim options →
  removeEmpty options' = removeEmpty options →
  cleanRows options' data stats = cleanRows options data stats.
Proof.
  intros Htrim Hrem. unfold cleanRows. generalize ([] : grid, stats).
  induction data as [|r data IH]; intros acc; [done|].
  cbn [foldl]. rewrite IH. f_equal.
  unfold cleanRow, cleanCell. destruct acc. by rewrite Htrim, Hrem.
Qed.

Section CleanData.

Variable host : Host.
Variable options : Options.

(** Step 3 leaves row 0 as it is. *)
Lemma fixColumnCounts_first first others stats :
  ∃ rest1 stats1,
    fixColumnCounts options (first :: others) stats
    = Ok (first :: rest1, stats1)
    ∧ length rest1 = length others
    ∧ duplicatesRemoved stats1 = duplicatesRemoved stats
    ∧ removedEmpty stats1 = removedEmpty stats
    ∧ (fixColumns options = true →
       Forall (λ r, length r = length first) rest1
       ∧ trimmedColumns stats1
         = (trimmedColumns stats
            + length (filter (λ r, (length first < length r)%nat)
                        (first :: others)))%nat
       ∧ paddedColumns stats1
         = (paddedColumns stats
            + length (filter (λ r, (length r < length first)%nat)
                        (first :: others)))%nat).
Proof.
  unfold fixColumnCounts.
  destruct (fixColumns options); [|by exists others, stats].
  cbn [lookup list_lookup].
  destruct (fixRow_foldl (length first) (first :: others) [] stats)
    as (out & -> & Hrec).
  inversion Hrec as [|? first' ? rest1 [_ Hfirst] Hrest]; subst.
  assert (first' = first) as ->.
  { destruct Hfirst as [[? _]|[[? _]|[_ ?]]]; [lia|lia|done]. }
  eexists rest1, _. split_and!; try done.
  { symmetry. by eapply Forall2_length. }
  intros _. split_and!; try done.
  clear -Hrest. induction Hrest as [|r r' ?? [H _]]; by constructor.
Qed.

(** Steps 4 and 5 after step 3. *)
Lemma finishRows_steps first others stats rest1 stats1 :
  fixColumnCounts options (first :: others) stats
  = Ok (first :: rest1, stats1) →
  finishRows host options (first :: others) stats
  = dedupeRows options (headerOf host options first :: rest1) stats1.
Proof.
  intros E1. unfold finishRows. rewrite E1. simpl.
  assert (normalizeHeaderRow host options (first :: rest1)
          = Ok (headerOf host options first :: rest1)) as ->.
  { unfold normalizeHeaderRow, headerOf.
    by destruct (normalizeHeader options). }
  done.
Qed.

Lemma headerOf_length first :
  length (headerOf host options first) = length first.
Proof.
  unfold headerOf. destruct (normalizeHeader options); [|done].
  by rewrite length_fmap.
Qed.

(** Steps 3 to 5 on a grid that has a first row: they return, row 0 is
    the header, and the rows dropped are counted. *)
Lemma finishRows_spec first others stats :
  ∃ rest stats',
    finishRows host options (first :: others) stats
    = Ok (headerOf host options first :: rest, stats')
    ∧ (duplicatesRemoved stats' + length rest
       = duplicatesRemoved stats + length others)%nat
    ∧ removedEmpty stats' = removedEmpty stats.
Proof.
  destruct (fixColumnCounts_first first others stats)
    as (rest1 & stats1 & E1 & Hlen1 & Hdup1 & Hrem1 & _).
  rewrite (finishRows_steps _ _ _ _ _ E1).
  destruct (dedupe options) eqn:Hded.
  - destruct (dedupeLoop_spec (headerOf host options first) rest1 stats1)
      as (kept & stats' & E & _ & _ & _ & Hcount & Hrem & _).
    exists kept, stats'. rewrite dedupeRows_on, E by done. simpl.
    split_and!; [done|lia|congruence].
  - exists rest1, stats1. unfold dedupeRows. rewrite Hded.
    split_and!; [done|lia|done].
Qed.

(** A successful run, step by step. *)
Lemma cleanData_ok_inv st st' :
  cleanData host options st = (Ok tt, st') →
  ∃ original first others stats1 out stats',
    originalData st = Some original
    ∧ cleanRows options (stripBomResidue original) zeroStats
      = (first :: others, stats1)
    ∧ finishRows host options (first :: others) stats1 = Ok (out, stats')
    ∧ cleanedData st' = Some out
    ∧ lastStats st' = Some stats'.
Proof.
  rewrite cleanData_eq.
  destruct (originalData st) as [[|r0 original]|] eqn:Horig; [done| |done].
  destruct (cleanRows _ _ _) as [[|first others] stats1] eqn:Hrows; [done|].
  destruct (finishRows _ _ _ _) as [[out stats']|e] eqn:Hfin; [|done].
  intros [= <-]. by eexists _, _, _, _, _, _.
Qed.

(** With [fixColumns] on, every row of the cleaned grid has the length
    of the first row that survived step 2, and the two column counters
    of the summary are the numbers of longer and of shorter rows. *)
Corollary cleanData_column_counts st st' :
  fixColumns options = true →
  cleanData host options st = (Ok tt, st') →
  ∃ original first others stats1 out stats',
    originalData st = Some original
    ∧ cleanRows options (stripBomResidue original) zeroStats
      = (first :: others, stats1)
    ∧ cleanedData st' = Some out
    ∧ lastStats st' = Some stats'
    ∧ Forall (λ r, length r = length first) out
    ∧ trimmedColumns stats'
      = length (filter (λ r, (length first < length r)%nat) (first :: others))
    ∧ paddedColumns stats'
      = length (filter (λ r, (length r < length first)%nat) (first :: others))
    ∧ (trimmedColumns stats' + paddedColumns stats'
       + length (filter (λ r, length r = length first) (first :: others))
       = length (first :: others))%nat.
Proof.
  intros Hfix
    (original & first & others & stats1 & out & stats' & Horig & Hrows
     & Hfin & Hout & Hstats)%cleanData_ok_inv.
  exists original, first, others, stats1, out, stats'.
  destruct (cleanRows_length _ _ _ _ _ Hrows) as (_ & _ & Htr0 & Hpa0).
  simpl in Htr0, Hpa0.
  destruct (fixColumnCounts_first first others stats1)
    as (rest1 & stats2 & E1 & _ & _ & _ & Hon).
  destruct (Hon Hfix) as (Hall & Htr & Hpa).
  rewrite (finishRows_steps _ _ _ _ _ E1) in Hfin.
  assert (Forall (λ r, length r = length first) out
          ∧ trimmedColumns stats' = trimmedColumns stats2
          ∧ paddedColumns stats' = paddedColumns stats2)
    as (Hlen & Htr' & Hpa').
  { destruct (dedupe options) eqn:Hded.
    - destruct (dedupeLoop_spec (headerOf host options first) rest1 stats2)
        as (kept & stats3 & E & Hsub & _ & _ & _ & _ & Htr3 & Hpa3).
      rewrite dedupeRows_on, E in Hfin by done. simpl in Hfin.
      injection Hfin as <- <-. split_and!; try done.
      constructor; [apply headerOf_length|].
      rewrite Forall_forall in Hall |- *.
      intros r Hin. apply Hall. by eapply elem_of_sublist.
    - unfold dedupeRows in Hfin. rewrite Hded in Hfin.
      injection Hfin as <- <-. split_and!; try done.
      constructor; [apply headerOf_length|done]. }
  pose proof (filter_length_trichotomy (length first) (first :: others)).
  split_and!; try done; lia.
Qed.

(** With [dedupe] on, the rows of the cleaned grid have pairwise
    distinct keys. *)
Corollary cleanData_distinct_keys st st' :
  dedupe options = true →
  cleanData host options st = (Ok tt, st') →
  ∃ out, cleanedData st' = Some out ∧ NoDup (rowKey <$> out).
Proof.
  intros Hded
    (original & first & others & stats1 & out & stats' & Horig & Hrows
     & Hfin & Hout & Hstats)%cleanData_ok_inv.
  exists out. split; [done|].
  destruct (fixColumnCounts_first first others stats1)
    as (rest1 & stats2 & E1 & _).
  rewrite (finishRows_steps _ _ _ _ _ E1) in Hfin.
  destruct (dedupeLoop_spec (headerOf host options first) rest1 stats2)
    as (kept & stats3 & E & _ & _ & Hnodup & _).
  rewrite dedupeRows_on, E in Hfin by done. simpl in Hfin.
  by injection Hfin as <- <-.
Qed.

(** C9. [cleanData] never fails on a read of row 0.  When a row
    survives step 2, [cleanData] returns: the cleaned grid is not empty
    and its row 0 is the first surviving row, normalized if
    [normalizeHeader] is on. *)
Theorem header_row_survives (st : State) :
  (cleanData host options st).1 ≠ Err JsTypeError
  ∧ ∀ original first others stats,
      originalData st = Some original →
      cleanRows options (stripBomResidue original) zeroStats
      = (first :: others, stats) →
      ∃ rest stats',
        finishRows host options (first :: others) stats
        = Ok (headerOf host options first :: rest, stats')
        ∧ cleanData host options st
          = (Ok tt,
             {| encodingUsed := encodingUsed st;
                encodingHasIssues := encodingHasIssues st;
                originalData := originalData st;
                cleanedData := Some (headerOf host options first :: rest);
                rowsBefore := rowsBefore st;
                rowsAfter := S (length rest);
                lastStats := Some stats' |}).
Proof.
  split.
  - rewrite cleanData_eq.
    destruct (originalData st) as [[|r0 original]|]; [done| |done].
    destruct (cleanRows _ _ _) as [[|first others] stats]; [done|].
    destruct (finishRows_spec first others stats) as (rest & stats' & -> & _).
    done.
  - intros original first others stats Horig Hrows.
    destruct (finishRows_spec first others stats)
      as (rest & stats' & E & _).
    exists rest, stats'. split; [done|].
    rewrite cleanData_eq, Horig.
    destruct original as [|r0 original]; [done|].
    by rewrite Hrows, E.
Qed.

(** C6. [cleanData] throws 'All rows were removed ...' exactly when
    there are rows and step 2 leaves none.  Whatever it throws, [state]
    is as it was before the call.  Whether this error is thrown is
    settled before steps 3 to 5: neither the host nor the options
    [fixColumns], [normalizeHeader] and [dedupe] bear on it. *)
Theorem all_rows_removed_guard (st : State) :
  ((cleanData host options st).1 = Err AllRowsRemoved
   ↔ ∃ original,
       originalData st = Some original ∧ original ≠ []
       ∧ (cleanRows options (stripBomResidue original) zeroStats).1 = [])
  ∧ (∀ e, (cleanData host options st).1 = Err e →
          (cleanData host options st).2 = st)
  ∧ (∀ host' options',
       trim options' = trim options →
       removeEmpty options' = removeEmpty options →
       (cleanData host options st).1 = Err AllRowsRemoved →
       cleanData host' options' st = (Err AllRowsRemoved, st)).
Proof.
  assert ((cleanData host options st).1 = Err AllRowsRemoved
   ↔ ∃ original,
       originalData st = Some original ∧ original ≠ []
       ∧ (cleanRows options (stripBomResidue original) zeroStats).1 = [])
    as Hiff.
  { rewrite cleanData_eq.
    destruct (originalData st) as [[|r0 original]|] eqn:Horig.
    - simpl. split; [done|]. intros (? & [= <-] & ? & _). done.
    - destruct (cleanRows _ _ _) as [[|first others] stats] eqn:Hrows.
      + simpl. split; [|done]. intros _. exists (r0 :: original).
        by rewrite Hrows.
      + destruct (finishRows_spec first others stats)
          as (rest & stats' & -> & _).
        simpl. split; [done|]. intros (? & [= <-] & _ & H).
        by rewrite Hrows in H.
    - simpl. split; [done|]. by intros (? & [=] & _). }
  split_and!; [done|..].
  - intros e. rewrite cleanData_eq.
    destruct (originalData st) as [[|r0 original]|]; [done| |done].
    destruct (cleanRows _ _ _) as [[|first others] stats]; [done|].
    by destruct (finishRows _ _ _ _) as [[??]|?].
  - intros host' options' Htrim Hrem (original & Horig & Hne & Hrows)%Hiff.
    rewrite cleanData_eq, Horig.
    destruct original as [|r0 original]; [done|].
    rewrite (cleanRows_options_ext options options') by done.
    by destruct (cleanRows _ _ _) as [[|??] ?].
Qed.

(** Step 3, row by row. *)
Lemma fixColumnCounts_rows first others stats :
  ∃ rest1 stats1,
    fixColumnCounts options (first :: others) stats
    = Ok (first :: rest1, stats1)
    ∧ Forall2 (reconciledTo options (length first)) others rest1
    ∧ reconciledTo options (length first) first first
    ∧ duplicatesRemoved stats1 = duplicatesRemoved stats
    ∧ removedEmpty stats1 = removedEmpty stats.
Proof.
  unfold fixColumnCounts, reconciledTo.
  destruct (fixColumns options).
  - cbn [lookup list_lookup].
    destruct (fixRow_foldl (length first) (first :: others) [] stats)
      as (out & -> & Hrec).
    inversion Hrec as [|? first' ? rest1 Hfirst Hrest]; subst.
    assert (first' = first) as ->.
    { destruct Hfirst as [_ [[? _]|[[? _]|[_ ?]]]]; [lia|lia|done]. }
    by eexists rest1, _.
  - exists others, stats. split_and!; try done.
    clear. induction others; by constructor.
Qed.

(** Step 5 from an arbitrary point on, row by row: a row is pushed, or
    it is counted and its key is in the set the loop ends with, which
    holds the keys the loop began with and those of the rows pushed. *)
Lemma dedupeRow_foldl_fates rest : ∀ seen deduped stats,
  ∃ fates seen' stats',
    foldl dedupeRow (seen, deduped, stats) rest
    = (seen', deduped ++ omap keptRow fates, stats')
    ∧ seen' = seen ∪ list_to_set (rowKey <$> omap keptRow fates)
    ∧ Forall2 (λ r f, f = Kept r
                      ∨ f = CountedDuplicate ∧ rowKey r ∈ seen') rest fates
    ∧ duplicatesRemoved stats'
      = (duplicatesRemoved stats
         + length (filter (λ f, f = CountedDuplicate) fates))%nat
    ∧ removedEmpty stats' = removedEmpty stats.
Proof.
  induction rest as [|r rest IH]; intros seen deduped stats.
  { exists [], seen, stats. simpl. rewrite app_nil_r, union_empty_r_L.
    split_and!; try done; try constructor; lia. }
  cbn [foldl]. unfold dedupeRow at 2. case_bool_decide as Hseen.
  - destruct (IH seen deduped
      {| removedEmpty := removedEmpty stats;
         duplicatesRemoved := S (duplicatesRemoved stats);
         trimmedColumns := trimmedColumns stats;
         paddedColumns := paddedColumns stats |})
      as (fates & seen' & stats' & -> & Hseen' & Hfates & Hdup & Hrem).
    exists (CountedDuplicate :: fates), seen', stats'.
    rewrite filter_cons, decide_True by done. simpl in *.
    split_and!; try done; [|lia].
    constructor; [|done]. right. split; [done|]. set_solver.
  - destruct (IH ({[rowKey r]} ∪ seen) (deduped ++ [r]) stats)
      as (fates & seen' & stats' & -> & Hseen' & Hfates & Hdup & Hrem).
    exists (Kept r :: fates), seen', stats'.
    rewrite filter_cons, decide_False by done. simpl in *.
    rewrite <- app_assoc. split_and!; try done; [set_solver|].
    constructor; [by left|done].
Qed.

(** Step 5 on the rows step 4 returns, row by row. *)
Lemma dedupeRows_fates header rest1 stats out stats' :
  dedupeRows options (header :: rest1) stats = Ok (out, stats') →
  ∃ fates,
    out = header :: omap keptRow fates
    ∧ Forall2 (λ r f, f = Kept r
                      ∨ f = CountedDuplicate ∧ dedupe options = true
                        ∧ rowKey r ∈ rowKey <$> out) rest1 fates
    ∧ duplicatesRemoved stats'
      = (duplicatesRemoved stats
         + length (filter (λ f, f = CountedDuplicate) fates))%nat
    ∧ removedEmpty stats' = removedEmpty stats.
Proof.
  destruct (dedupe options) eqn:Hded.
  - rewrite dedupeRows_on by done. unfold dedupeLoop.
    destruct (dedupeRow_foldl_fates rest1 {[rowKey header]} [header] stats)
      as (fates & seen' & stats1 & -> & -> & Hfates & Hdup & Hrem).
    simpl. intros [= <- <-]. exists fates. split_and!; try done.
    eapply Forall2_impl; [exact Hfates|].
    intros r f [->|[-> Hin]]; [by left|right].
    split_and!; try done.
    rewrite fmap_cons.
    apply elem_of_union in Hin as [->%elem_of_singleton|Hin]; [left|].
    right. by apply elem_of_list_to_set in Hin.
  - unfold dedupeRows. rewrite Hded. intros [= <- <-].
    exists (Kept <$> rest1). split_and!.
    + f_equal. clear. induction rest1 as [|r rest1 IH]; [done|].
      simpl. by f_equal.
    + generalize (rowKey <$> header :: rest1). intros keys. clear.
      induction rest1; simpl; constructor; auto.
    + assert (filter (λ f, f = CountedDuplicate) (Kept <$> rest1) = [])
        as ->; [|simpl; lia].
      clear. induction rest1 as [|r rest1 IH]; [done|].
      rewrite fmap_cons, filter_cons, decide_False by done. done.
    + done.
Qed.

(** Steps 3 to 5, row by row: the first row stays first, with its
    header cells normalized if asked; each later row is kept as step 3
    returns it or counted by step 5. *)
Lemma finishRows_fates first others stats out stats' :
  finishRows host options (first :: others) stats = Ok (out, stats') →
  ∃ fates,
    out = headerOf host options first :: omap keptRow fates
    ∧ Forall2 (survivorFate options (length first) out) (first :: others)
        (Kept first :: fates)
    ∧ duplicatesRemoved stats'
      = (duplicatesRemoved stats
         + length (filter (λ f, f = CountedDuplicate) fates))%nat
    ∧ removedEmpty stats' = removedEmpty stats.
Proof.
  destruct (fixColumnCounts_rows first others stats)
    as (rest1 & stats1 & E1 & Hrec & Hfirst & Hdup1 & Hrem1).
  rewrite (finishRows_steps _ _ _ _ _ E1).
  intros (fates & Hout & Hfates & Hdup & Hrem)%dedupeRows_fates.
  exists fates. split_and!; [done| |congruence|congruence].
  constructor; [done|].
  clear -Hrec Hfates. revert fates Hfates.
  induction Hrec as [|r r1 others rest1 Hr Hrec IH]; intros fates Hfates.
  { inversion Hfates. constructor. }
  inversion Hfates as [|? f ? fates' Hf Hfates']; subst.
  constructor; [|by apply IH].
  destruct Hf as [->|(-> & Hded & Hin)]; [done|].
  split; [done|]. by exists r1.
Qed.

(** Step 2, row by row: given fates for the rows step 2 pushes, there
    are fates for all rows, those of blank rows being [CountedEmpty]. *)
Lemma cleanRow_foldl_fates (Q : row → fate → Prop) data : ∀ rows stats,
  ∃ kept,
    (foldl (cleanRow options) (rows, stats) data).1 = rows ++ kept
    ∧ ∀ fates',
        Forall2 Q kept fates' →
        ∃ fates,
          Forall2 (λ r f,
                     if removeEmpty options
                        && isEmptyRow (cleanCell options <$> r)
                     then f = CountedEmpty
                     else Q (cleanCell options <$> r) f) data fates
          ∧ omap keptRow fates = omap keptRow fates'
          ∧ length (filter (λ f, f = CountedDuplicate) fates)
            = length (filter (λ f, f = CountedDuplicate) fates')
          ∧ (length (filter (λ f, f = CountedEmpty) fates) + length kept
             = length (filter (λ f, f = CountedEmpty) fates')
               + length data)%nat.
Proof.
  induction data as [|r data IH]; intros rows stats; cbn [foldl].
  { exists []. rewrite app_nil_r. split; [done|].
    intros fates' Hfates'. inversion Hfates'. by exists []. }
  destruct (removeEmpty options && isEmptyRow (cleanCell options <$> r))
    eqn:E.
  - assert (cleanRow options (rows, stats) r
            = (rows, {| removedEmpty := S (removedEmpty stats);
                        duplicatesRemoved := duplicatesRemoved stats;
                        trimmedColumns := trimmedColumns stats;
                        paddedColumns := paddedColumns stats |})) as ->.
    { unfold cleanRow. by rewrite E. }
    destruct (IH rows
      {| removedEmpty := S (removedEmpty stats);
         duplicatesRemoved := duplicatesRemoved stats;
         trimmedColumns := trimmedColumns stats;
         paddedColumns := paddedColumns stats |}) as (kept & -> & Hlift).
    exists kept. split; [done|]. intros fates' Hfates'.
    destruct (Hlift fates' Hfates') as (fates & Hall & Hkept & Hdup & Hemp).
    exists (CountedEmpty :: fates).
    rewrite !filter_cons, decide_False, decide_True by done.
    split_and!; [|done|done|simpl; lia].
    constructor; [by rewrite E|done].
  - assert (cleanRow options (rows, stats) r
            = (rows ++ [cleanCell options <$> r], stats)) as ->.
    { unfold cleanRow. by rewrite E. }
    destruct (IH (rows ++ [cleanCell options <$> r]) stats)
      as (kept & -> & Hlift).
    exists ((cleanCell options <$> r) :: kept).
    rewrite <- app_assoc. split; [done|]. intros fates' Hfates'.
    inversion Hfates' as [|? f ? fates1 Hf Hfates1]; subst.
    destruct (Hlift fates1 Hfates1) as (fates & Hall & Hkept & Hdup & Hemp).
    exists (f :: fates). split_and!.
    + constructor; [by rewrite E|done].
    + change (f :: fates) with ([f] ++ fates).
      change (f :: fates1) with ([f] ++ fates1).
      by rewrite !omap_app, Hkept.
    + rewrite !filter_cons. case_decide; simpl; lia.
    + rewrite !filter_cons. case_decide; simpl in *; lia.
Qed.

(** C5. From a state in which [rowsBefore] is the number of parsed
    rows, a successful [cleanData] leaves [rowsBefore] as it is and
    [rowsBefore - rowsAfter = removedEmpty + duplicatesRemoved].  Row by
    row: each parsed row (row 0 after step 1) has one fate.  Either it
    is blank after step 2 with [removeEmpty] on, and counted in
    [removedEmpty]; or [dedupe] is on and the row, cleaned by step 2 and
    reconciled by step 3, has the key of a row of the cleaned grid, and
    it is counted in [duplicatesRemoved]; or it is kept, cleaned by
    step 2 and reconciled by step 3.  The cleaned grid holds the kept
    rows, and no other, in the order of the parsed rows, its row 0
    being the first of them with its cells normalized if
    [normalizeHeader] is on; [removedEmpty] and [duplicatesRemoved] are
    the numbers of rows of the two other fates. *)
Theorem row_counts_balance (st st' : State) :
  rowsBeforeCounted st →
  cleanData host options st = (Ok tt, st') →
  ∃ original out stats,
    originalData st = Some original
    ∧ cleanedData st' = Some out
    ∧ lastStats st' = Some stats
    ∧ rowsBefore st' = length original
    ∧ rowsAfter st' = length out
    ∧ (length original
       = length out + removedEmpty stats + duplicatesRemoved stats)%nat
    ∧ (rowsBefore st' - rowsAfter st'
       = removedEmpty stats + duplicatesRemoved stats)%nat
    ∧ ∃ fates first rest,
        Forall2 (rowFate options (length first) out)
          (stripBomResidue original) fates
        ∧ length fates = length original
        ∧ omap keptRow fates = first :: rest
        ∧ out = headerOf host options first :: rest
        ∧ removedEmpty stats
          = length (filter (λ f, f = CountedEmpty) fates)
        ∧ duplicatesRemoved stats
          = length (filter (λ f, f = CountedDuplicate) fates).
Proof.
  intros Hinv. rewrite cleanData_eq.
  destruct (originalData st) as [[|r0 original]|] eqn:Horig; [done| |done].
  destruct (Hinv _ Horig) as [_ Hbefore].
  destruct (cleanRows _ _ _) as [[|first others] stats] eqn:Hrows; [done|].
  destruct (finishRows_spec first others stats)
    as (rest & stats' & E & Hcount & Hrem).
  rewrite E. intros [= <-]. simpl.
  destruct (cleanRows_length _ _ _ _ _ Hrows) as (Hlen & Hdup & _).
  simpl in Hlen, Hdup.
  assert (length (stripBomResidue (r0 :: original))
          = length (r0 :: original)) as Hstrip.
  { unfold stripBomResidue. simpl. by destruct r0 as [|[]]. }
  rewrite Hstrip in Hlen. simpl in Hlen, Hbefore.
  exists (r0 :: original), (headerOf host options first :: rest), stats'.
  simpl. split_and!; try done; try lia.
  destruct (finishRows_fates _ _ _ _ _ E)
    as (fates' & [= Hrest] & Hfates' & Hdup' & _).
  destruct (cleanRow_foldl_fates
              (survivorFate options (length first)
                 (headerOf host options first :: rest))
              (stripBomResidue (r0 :: original)) [] zeroStats)
    as (kept & Hkept & Hlift).
  unfold cleanRows in Hrows. rewrite Hrows in Hkept. simpl in Hkept.
  subst kept.
  destruct (Hlift _ Hfates') as (fates & Hall & Hk & Hd & He).
  assert (filter (λ f, f = CountedEmpty) (Kept first :: fates') = [])
    as Hnone.
  { clear -Hfates'. rewrite filter_cons, decide_False by done.
    inversion Hfates' as [|???? _ Hrest]; subst. clear Hfates'.
    induction Hrest as [|r f others fates' Hf Hrest IH]; [done|].
    rewrite filter_cons. destruct f; [| done |];
      by rewrite decide_False by done. }
  rewrite Hnone in He. rewrite Hstrip in He.
  rewrite filter_cons, decide_False in Hd by done.
  simpl in Hk, He.
  exists fates, first, rest. split_and!.
  - exact Hall.
  - apply Forall2_length in Hall. rewrite Hstrip in Hall. simpl in Hall.
    by rewrite <- Hall.
  - by rewrite Hk, Hrest.
  - done.
  - lia.
  - lia.
Qed.

End CleanData.

(** C10. Rows are compared by their cells joined with U+0001, so rows
    that differ can have one key, as ["a\u0001b"] and ["a","b"] do.
    With [dedupe] on, the later of two rows with one key is dropped and
    counted: without it the output is the same and the counter one
    less.  [cleanData] on [["h"],["a\u0001b"],["a","b"]] with only
    [dedupe] on returns [["h"],["a\u0001b"]] and one duplicate. *)
Theorem dedupe_key_collision :
  (rowKey [[97; 1; 98]] = rowKey [[97]; [98]]
   ∧ ([[97; 1; 98]] : row) ≠ [[97]; [98]])
  ∧ (∀ options header pre r1 mid r2 post stats,
       dedupe options = true →
       rowKey r1 = rowKey r2 →
       ∃ kept stats0 stats',
         dedupeRows options (header :: pre ++ r1 :: mid ++ r2 :: post) stats
         = Ok (kept, stats')
         ∧ dedupeRows options (header :: pre ++ r1 :: mid ++ post) stats
           = Ok (kept, stats0)
         ∧ duplicatesRemoved stats' = S (duplicatesRemoved stats0))
  ∧ cleanData Reference.host dedupeOnly
      (loadedState [[CStr [104]]; [CStr [97; 1; 98]]; [CStr [97]; CStr [98]]])
    = (Ok tt,
       {| encodingUsed := "utf-8"; encodingHasIssues := false;
          originalData :=
            Some [[CStr [104]]; [CStr [97; 1; 98]]; [CStr [97]; CStr [98]]];
          cleanedData := Some [[[104]]; [[97; 1; 98]]];
          rowsBefore := 3; rowsAfter := 2;
          lastStats := Some {| removedEmpty := 0; duplicatesRemoved := 1;
                               trimmedColumns := 0; paddedColumns := 0 |} |}).
Proof.
  split_and!; [done|done| |by vm_compute].
  intros options header pre r1 mid r2 post stats Hon Hkey.
  destruct (dedupeLoop_skip header (pre ++ r1 :: mid) r2 post stats)
    as [H1 H2].
  { rewrite <- Hkey, fmap_cons, fmap_app, fmap_cons. set_solver. }
  rewrite <- !app_assoc in H1, H2. simpl in H1, H2.
  eexists _, _, _. rewrite !dedupeRows_on by done.
  split_and!; [done| |exact H2]. by rewrite H1.
Qed.

(** ** [state.rowsBefore] *)

Lemma initialState_rowsBeforeCounted : rowsBeforeCounted initialState.
Proof. intros data. simpl. done. Qed.

Lemma handleFileChange_rowsBeforeCounted host file st :
  rowsBeforeCounted (handleFileChange host file st).2.
Proof.
  unfold handleFileChange, mbind, M_bind, resetStats, clearData, modify, lift.
  simpl. destruct file as [buffer|]; [|by intros ?].
  destruct (readFileWithBestEncoding host buffer) as [best|e]; [|by intros ?].
  simpl. unfold parseCsvText.
  destruct (parseCsv host (text best)) as [[|r0 data]|]; try by intros ?.
  simpl. intros ? [= <-]. done.
Qed.

Lemma cleanData_rowsBeforeCounted host options st :
  rowsBeforeCounted st → rowsBeforeCounted (cleanData host options st).2.
Proof.
  intros Hinv. rewrite cleanData_eq.
  destruct (originalData st) as [[|r0 original]|] eqn:Horig; try done.
  destruct (cleanRows _ _ _) as [[|first others] stats]; [done|].
  destruct (finishRows _ _ _ _) as [[finalRows stats']|e]; [|done].
  intros data. simpl. intros [= <-]. by apply Hinv.
Qed.

(** ** The reference host *)

Lemma reference_lowerCase_fixes : lowerCaseFixesHeaderChars Reference.host.
Proof.
  intros s. simpl. unfold Reference.lowerCase.
  induction 1 as [|c r Hc Hr IH]; [done|].
  cbn [mbind list_bind]. rewrite IH.
  assert (Reference.lowerUnit c = [c]) as ->; [|done].
  assert (48 ≤ c ≤ 122 ∧ ¬ (65 ≤ c ≤ 90)) as [[Hlo Hhi] Hup].
  { unfold isHeaderChar in Hc.
    repeat (apply orb_prop in Hc as [Hc|Hc]);
      try apply andb_prop in Hc as [H1 H2];
      rewrite ?N.leb_le, ?N.eqb_eq in *; lia. }
  unfold Reference.lowerUnit.
  replace (0xC0 <=? c) with false by (symmetry; apply N.leb_gt; lia).
  replace (c =? 0x130) with false by (symmetry; apply N.eqb_neq; lia).
  destruct (N.leb_spec 65 c), (N.leb_spec c 90); simpl; try done. lia.
Qed.

Lemma reference_emptyDecodeIsUtf8 buffer :
  emptyDecodeIsUtf8 Reference.host buffer.
Proof.
  intros enc Hin Hdec. unfold encodingsToTry in Hin.
  repeat (apply elem_of_cons in Hin as [->|Hin]);
    [..|by apply elem_of_nil in Hin]; simpl in Hdec |- *.
  - done.
  - injection Hdec as Hdec. apply fmap_nil_inv in Hdec as ->. done.
  - injection Hdec as Hdec. apply fmap_nil_inv in Hdec as ->. done.
Qed.

(** C7 as stated fails for a text that begins with a BOM.  The six bytes
    EF BB BF EF BB BF decode to the text U+FEFF (the decoder drops the
    first mark) and the nine bytes EF BB BF EF BB BF EF BB BF to the
    same text behind one more U+FEFF; the resolver returns the empty
    text for the former and U+FEFF for the latter. *)
Lemma resolver_bom_not_idempotent_on_bom_text :
  (text <$> selectBest Reference.host
              (Reference.bomBytes ++ Reference.bomBytes))
  = Ok [BOM]
  ∧ (text <$> selectBest Reference.host
                (Reference.bomBytes ++ Reference.bomBytes
                   ++ Reference.bomBytes))
    = Ok (BOM :: [BOM])
  ∧ (text <$> readFileWithBestEncoding Reference.host
                (Reference.bomBytes ++ Reference.bomBytes))
    = Ok []
  ∧ (text <$> readFileWithBestEncoding Reference.host
                (Reference.bomBytes ++ Reference.bomBytes
                   ++ Reference.bomBytes))
    = Ok [BOM]
  ∧ (text <$> readFileWithBestEncoding Reference.host
                (Reference.bomBytes ++ Reference.bomBytes
                   ++ Reference.bomBytes))
    ≠ (text <$> readFileWithBestEncoding Reference.host
                  (Reference.bomBytes ++ Reference.bomBytes)).
Proof. split_and!; by vm_compute. Qed.

(** ** The statements at concrete inputs *)

Lemma normalizeHeaderValue_idempotent_witness :
  lowerCaseFixesHeaderChars Reference.host
  ∧ normalizeHeaderValue Reference.host
      (CStr (normalizeHeaderValue Reference.host
               (CStr (Reference.units "  First  Name (x)__ "))))
    = normalizeHeaderValue Reference.host
        (CStr (Reference.units "  First  Name (x)__ ")).
Proof.
  split; [exact reference_lowerCase_fixes|].
  apply (normalizeHeaderValue_idempotent Reference.host).
  exact reference_lowerCase_fixes.
Defined.

Lemma resolver_selects_fewest_first_witness :
  hasTextDecoder Reference.host = true
  ∧ emptyDecodeIsUtf8 Reference.host [xe9; x41]
  ∧ fewestFirst Reference.host [xe9; x41] encodingsToTry
      "windows-1252" [233; 65]
  ∧ readFileWithBestEncoding Reference.host [xe9; x41]
    = Ok {| text := [233; 65]; encoding := "windows-1252";
            replacementCount := Finite 0 |}
  ∧ decodeWith Reference.host "utf-8" [xc3; xa9; x41] = Some [233; 65]
  ∧ readFileWithBestEncoding Reference.host [xc3; xa9; x41]
    = Ok {| text := [233; 65]; encoding := "utf-8";
            replacementCount := Finite 0 |}.
Proof.
  assert (fewestFirst Reference.host [xe9; x41] encodingsToTry
            "windows-1252" [233; 65]) as Hsel.
  { exists ["utf-8"%string], ["iso-8859-1"%string].
    split_and!; [reflexivity|reflexivity|..].
    - intros e t' ->%list_elem_of_singleton [= <-]. vm_compute. lia.
    - intros e t' ->%list_elem_of_singleton [= <-]. vm_compute. lia. }
  split_and!; [reflexivity|apply reference_emptyDecodeIsUtf8|exact Hsel|
               |reflexivity|].
  - exact (proj1 (resolver_selects_fewest_first Reference.host [xe9; x41]
                    eq_refl (reference_emptyDecodeIsUtf8 _))
             "windows-1252"%string [233; 65] Hsel).
  - exact (proj1 (proj2 (resolver_selects_fewest_first Reference.host
                           [xc3; xa9; x41] eq_refl
                           (reference_emptyDecodeIsUtf8 _)))
             [233; 65] eq_refl eq_refl).
Defined.

Lemma resolver_strips_one_leading_bom_witness :
  hasTextDecoder Reference.host = true
  ∧ (text <$> selectBest Reference.host (Reference.bytes "id"))
    = Ok (Reference.units "id")
  ∧ (text <$> selectBest Reference.host
                (Reference.bomBytes ++ Reference.bomBytes
                   ++ Reference.bytes "id"))
    = Ok (BOM :: Reference.units "id")
  ∧ (text <$> readFileWithBestEncoding Reference.host
                (Reference.bomBytes ++ Reference.bomBytes
                   ++ Reference.bytes "id"))
    = Ok (Reference.units "id")
  ∧ (text <$> readFileWithBestEncoding Reference.host (Reference.bytes "id"))
    = (text <$> readFileWithBestEncoding Reference.host
                  (Reference.bomBytes ++ Reference.bomBytes
                     ++ Reference.bytes "id")).
Proof.
  pose proof (resolver_strips_one_leading_bom Reference.host
    (Reference.bytes "id")
    (Reference.bomBytes ++ Reference.bomBytes ++ Reference.bytes "id")
    {| text := Reference.units "id"; encoding := "utf-8";
       replacementCount := Finite 0 |}
    {| text := BOM :: Reference.units "id"; encoding := "utf-8";
       replacementCount := Finite 0 |}
    (Reference.units "id")
    eq_refl eq_refl eq_refl eq_refl eq_refl) as [H1 H2].
  split_and!; [reflexivity|reflexivity|reflexivity|exact H1|].
  apply H2. vm_compute. discriminate.
Defined.

Lemma fixColumnCounts_reconciles_witness :
  fixColumns defaultOptions = true
  ∧ [Reference.strings ["a"; "b"; "c"]; Reference.strings ["1"; "2"];
     Reference.strings ["3"; "4"; "5"; "6"]] !! 0%nat
    = Some (Reference.strings ["a"; "b"; "c"])
  ∧ ∃ finalRows stats',
      fixColumnCounts defaultOptions
        [Reference.strings ["a"; "b"; "c"]; Reference.strings ["1"; "2"];
         Reference.strings ["3"; "4"; "5"; "6"]] zeroStats
      = Ok (finalRows, stats')
      ∧ Forall (λ r', length r' = 3%nat) finalRows.
Proof.
  split_and!; [reflexivity|reflexivity|].
  destruct (fixColumnCounts_reconciles defaultOptions
    [Reference.strings ["a"; "b"; "c"]; Reference.strings ["1"; "2"];
     Reference.strings ["3"; "4"; "5"; "6"]]
    (Reference.strings ["a"; "b"; "c"]) zeroStats eq_refl eq_refl)
    as (finalRows & stats' & H1 & H2 & _).
  exists finalRows, stats'. split; [exact H1|exact H2].
Defined.

Lemma dedupe_drops_rows_equal_to_header_witness :
  dedupe dedupeOnly = true
  ∧ ∃ kept stats',
      dedupeRows dedupeOnly
        (Reference.strings ["id"]
           :: [Reference.strings ["id"]; Reference.strings ["7"]]) zeroStats
      = Ok (Reference.strings ["id"] :: kept, stats')
      ∧ (Reference.strings ["id"] ∉ kept).
Proof.
  split; [reflexivity|].
  destruct (dedupe_drops_rows_equal_to_header dedupeOnly
    (Reference.strings ["id"])
    [Reference.strings ["id"]; Reference.strings ["7"]] zeroStats eq_refl)
    as (kept & stats' & H1 & _ & H2 & _).
  exists kept, stats'. split; [exact H1|exact H2].
Defined.

Lemma dedupe_keeps_first_of_each_key_witness :
  dedupe dedupeOnly = true
  ∧ ∃ kept stats',
      dedupeRows dedupeOnly
        (Reference.strings ["id"]
           :: [Reference.strings ["7"]; Reference.strings ["8"];
               Reference.strings ["7"]]) zeroStats
      = Ok (Reference.strings ["id"] :: kept, stats')
      ∧ sublist kept [Reference.strings ["7"]; Reference.strings ["8"];
                      Reference.strings ["7"]]
      ∧ (duplicatesRemoved stats' + length kept
         = duplicatesRemoved zeroStats + 3)%nat.
Proof.
  split; [reflexivity|].
  destruct (dedupe_keeps_first_of_each_key dedupeOnly
    (Reference.strings ["id"])
    [Reference.strings ["7"]; Reference.strings ["8"];
     Reference.strings ["7"]] zeroStats eq_refl)
    as (kept & stats' & H1 & H2 & H3 & _).
  exists kept, stats'. split_and!; [exact H1|exact H2|exact H3].
Defined.

Lemma row_counts_balance_witness :
  rowsBeforeCounted (loadedState roundTripGrid)
  ∧ ∃ st',
      cleanData Reference.host allOptions (loadedState roundTripGrid)
      = (Ok tt, st')
      ∧ rowsBefore st' = 4%nat ∧ rowsAfter st' = 2%nat
      ∧ ∃ stats,
          lastStats st' = Some stats
          ∧ (rowsBefore st' - rowsAfter st'
             = removedEmpty stats + duplicatesRemoved stats)%nat
          ∧ ∃ fates first rest,
              Forall2 (rowFate allOptions (length first)
                         (headerOf Reference.host allOptions first :: rest))
                (stripBomResidue roundTripGrid) fates
              ∧ length fates = 4%nat
              ∧ omap keptRow fates = first :: rest
              ∧ cleanedData st'
                = Some (headerOf Reference.host allOptions first :: rest)
              ∧ removedEmpty stats
                = length (filter (λ f, f = CountedEmpty) fates)
              ∧ duplicatesRemoved stats
                = length (filter (λ f, f = CountedDuplicate) fates).
Proof.
  assert (rowsBeforeCounted (loadedState roundTripGrid)) as Hinv.
  { intros data [= <-]. split; [discriminate|reflexivity]. }
  split; [exact Hinv|].
  eexists. split; [vm_compute; reflexivity|].
  split; [reflexivity|]. split; [reflexivity|].
  destruct (row_counts_balance Reference.host allOptions
              (loadedState roundTripGrid) _ Hinv eq_refl)
    as (original & out & stats & Horig & Hout & Hstats & _ & _ & _ & Hbal
        & fates & first & rest & Hall & Hlen & Hkept & Heq & Hemp & Hdup).
  exists stats. split; [exact Hstats|]. split; [exact Hbal|].
  injection Horig as <-. rewrite Heq in Hall, Hout.
  exists fates, first, rest.
  exact (conj Hall (conj Hlen (conj Hkept (conj Hout (conj Hemp Hdup))))).
Defined.

(** The fates of the four rows of [roundTripGrid] with every option on:
    the header and the first Alice row are kept, the blank row is
    counted in [removedEmpty], the second Alice row in
    [duplicatesRemoved]. *)
Example roundTripGrid_fates :
  (cleanData Reference.host allOptions (loadedState roundTripGrid)).1 = Ok tt
  ∧ cleanedData
      (cleanData Reference.host allOptions (loadedState roundTripGrid)).2
    = Some [Reference.strings ["name"; "email"];
            Reference.strings ["Alice"; "a@x.com"]]
  ∧ Forall2
      (rowFate allOptions 2
         [Reference.strings ["name"; "email"];
          Reference.strings ["Alice"; "a@x.com"]])
      (stripBomResidue roundTripGrid)
      [Kept (Reference.strings ["Name"; "Email"]);
       Kept (Reference.strings ["Alice"; "a@x.com"]);
       CountedEmpty; CountedDuplicate].
Proof.
  assert (∀ r : row, length r = 2%nat → reconciles 2 r r) as Hsame.
  { intros r Hr. split; [done|]. by right; right. }
  split; [reflexivity|]. split; [reflexivity|].
  apply Forall2_cons. split; [by apply Hsame|].
  apply Forall2_cons. split; [by apply Hsame|].
  apply Forall2_cons. split; [reflexivity|].
  apply Forall2_cons. split; [|constructor].
  split; [reflexivity|].
  exists (Reference.strings ["Alice"; "a@x.com"]).
  split; [by apply Hsame|]. vm_compute. set_solver.
Qed.

Lemma all_rows_removed_guard_witness :
  (cleanData Reference.host defaultOptions (loadedState blankGrid)).1
  = Err AllRowsRemoved
  ∧ (cleanData Reference.host defaultOptions (loadedState blankGrid)).2
    = loadedState blankGrid
  ∧ cleanData Reference.host allOptions (loadedState blankGrid)
    = (Err AllRowsRemoved, loadedState blankGrid).
Proof.
  pose proof (all_rows_removed_guard Reference.host defaultOptions
                (loadedState blankGrid)) as (_ & Hstate & Hindep).
  assert ((cleanData Reference.host defaultOptions (loadedState blankGrid)).1
          = Err AllRowsRemoved) as Herr by (vm_compute; reflexivity).
  split_and!; [exact Herr|exact (Hstate _ Herr)|].
  exact (Hindep Reference.host allOptions eq_refl eq_refl Herr).
Defined.

Lemma header_row_survives_witness :
  originalData (loadedState roundTripGrid) = Some roundTripGrid
  ∧ cleanRows allOptions (stripBomResidue roundTripGrid) zeroStats
    = ([Reference.strings ["Name"; "Email"];
        Reference.strings ["Alice"; "a@x.com"];
        Reference.strings ["Alice"; "a@x.com"]],
       {| removedEmpty := 1; duplicatesRemoved := 0;
          trimmedColumns := 0; paddedColumns := 0 |})
  ∧ ∃ rest stats',
      cleanData Reference.host allOptions (loadedState roundTripGrid)
      = (Ok tt,
         {| encodingUsed := "utf-8"; encodingHasIssues := false;
            originalData := Some roundTripGrid;
            cleanedData := Some (Reference.strings ["name"; "email"] :: rest);
            rowsBefore := 4;
            rowsAfter := S (length rest);
            lastStats := Some stats' |}).
Proof.
  split_and!; [reflexivity|vm_compute; reflexivity|].
  destruct (proj2 (header_row_survives Reference.host allOptions
                     (loadedState roundTripGrid))
              roundTripGrid
              (Reference.strings ["Name"; "Email"])
              [Reference.strings ["Alice"; "a@x.com"];
               Reference.strings ["Alice"; "a@x.com"]]
              {| removedEmpty := 1; duplicatesRemoved := 0;
                 trimmedColumns := 0; paddedColumns := 0 |}
              eq_refl eq_refl)
    as (rest & stats' & _ & Hrun).
  exists rest, stats'. exact Hrun.
Defined.

Lemma dedupe_key_collision_witness :
  dedupe dedupeOnly = true
  ∧ rowKey [[97; 1; 98]] = rowKey [[97]; [98]]
  ∧ ∃ kept stats0 stats',
      dedupeRows dedupeOnly
        ([[104]] :: [] ++ [[97; 1; 98]] :: [] ++ [[97]; [98]] :: []) zeroStats
      = Ok (kept, stats')
      ∧ dedupeRows dedupeOnly
          ([[104]] :: [] ++ [[97; 1; 98]] :: [] ++ []) zeroStats
        = Ok (kept, stats0)
      ∧ duplicatesRemoved stats' = S (duplicatesRemoved stats0).
Proof.
  split_and!; [reflexivity|reflexivity|].
  exact (proj1 (proj2 dedupe_key_collision) dedupeOnly
           [[104]] [] [[97; 1; 98]] [] [[97]; [98]] [] zeroStats
           eq_refl eq_refl).
Defined.

(** ** The scenarios of the specification *)

Example round_trip_scenario :
  cleanData Reference.host allOptions (loadedState roundTripGrid)
  = (Ok tt,
     {| encodingUsed := "utf-8"; encodingHasIssues := false;
        originalData := Some roundTripGrid;
        cleanedData := Some [Reference.strings ["name"; "email"];
                             Reference.strings ["Alice"; "a@x.com"]];
        rowsBefore := 4; rowsAfter := 2;
        lastStats := Some {| removedEmpty := 1; duplicatesRemoved := 1;
                             trimmedColumns := 0; paddedColumns := 0 |} |}).
Proof. by vm_compute. Qed.

Example ragged_column_scenario :
  cleanData Reference.host onlyFixColumns (loadedState raggedGrid)
  = (Ok tt,
     {| encodingUsed := "utf-8"; encodingHasIssues := false;
        originalData := Some raggedGrid;
        cleanedData := Some [Reference.strings ["a"; "b"; "c"];
                             Reference.strings ["1"; "2"; ""];
                             Reference.strings ["3"; "4"; "5"]];
        rowsBefore := 3; rowsAfter := 3;
        lastStats := Some {| removedEmpty := 0; duplicatesRemoved := 0;
                             trimmedColumns := 1; paddedColumns := 1 |} |}).
Proof. by vm_compute. Qed.

Example no_op_scenario :
  cleanData Reference.host noToggles
    (loadedState [Reference.cells ["a"; "b"]; Reference.cells ["1"; "2"]])
  = (Ok tt,
     {| encodingUsed := "utf-8"; encodingHasIssues := false;
        originalData :=
          Some [Reference.cells ["a"; "b"]; Reference.cells ["1"; "2"]];
        cleanedData := Some [Reference.strings ["a"; "b"];
                             Reference.strings ["1"; "2"]];
        rowsBefore := 2; rowsAfter := 2;
        lastStats := Some zeroStats |}).
Proof. by vm_compute. Qed.

Example upload_then_clean :
  (cleanData Reference.host defaultOptions
     (handleFileChange Reference.host
        (Some (Reference.bomBytes ++ Reference.bytes "First Name,Age
Ann,41,x
Bob
"))
        initialState).2).2
  = {| encodingUsed := "utf-8"; encodingHasIssues := false;
       originalData :=
         Some [Reference.cells ["First Name"; "Age"];
               Reference.cells ["Ann"; "41"; "x"];
               Reference.cells ["Bob"]; Reference.cells [""]];
       cleanedData := Some [Reference.strings ["first_name"; "age"];
                            Reference.strings ["Ann"; "41"];
                            Reference.strings ["Bob"; ""]];
       rowsBefore := 4; rowsAfter := 3;
       lastStats := Some {| removedEmpty := 1; duplicatesRemoved := 0;
                            trimmedColumns := 1; paddedColumns := 1 |} |}.
Proof. by vm_compute. Qed.

(** * The rest of the script *)

(** ** Cells after step 2 *)

Lemma normalizeLineEndings_no_CR_upto n : ∀ s,
  (length s ≤ n)%nat → Forall (λ c, c ≠ CR) (normalizeLineEndings s).
Proof.
  induction n as [|n IH]; intros [|c r] Hlen; simpl in *; try done; [lia|].
  destruct (N.eqb_spec c CR) as [->|Hc].
  - constructor; [done|]. destruct r as [|c' r']; [done|].
    simpl in Hlen. destruct (c' =? LF); apply IH; simpl; lia.
  - constructor; [done|]. apply IH. lia.
Qed.

Lemma normalizeLineEndings_no_CR s :
  Forall (λ c, c ≠ CR) (normalizeLineEndings s).
Proof. by apply (normalizeLineEndings_no_CR_upto (length s)). Qed.

Lemma normalizeLineEndings_fix s :
  Forall (λ c, c ≠ CR) s → normalizeLineEndings s = s.
Proof.
  induction 1 as [|c r Hc Hr IH]; [done|].
  simpl. apply N.eqb_neq in Hc. by rewrite Hc, IH.
Qed.

Lemma str_trim_Forall (Q : N → Prop) s : Forall Q s → Forall Q (str_trim s).
Proof.
  intros H. unfold str_trim.
  destruct (dropWhileEnd_prefix isWhiteSpace (dropWhile isWhiteSpace s))
    as [k1 E1].
  destruct (dropWhile_suffix isWhiteSpace s) as [k2 E2].
  rewrite E2, E1 in H. by apply Forall_app in H as [_ [H _]%Forall_app].
Qed.

Lemma str_trim_ends s :
  headFree isWhiteSpace (str_trim s) ∧ lastFree isWhiteSpace (str_trim s).
Proof.
  unfold str_trim. split.
  - apply dropWhileEnd_headFree, dropWhile_headFree.
  - apply dropWhileEnd_lastFree.
Qed.

Lemma str_trim_fix s :
  headFree isWhiteSpace s → lastFree isWhiteSpace s → str_trim s = s.
Proof.
  intros Hh Hl. unfold str_trim.
  rewrite (dropWhile_fix _ s) by done. by apply dropWhileEnd_fix.
Qed.

Lemma cleanCell_no_CR options c : Forall (λ u, u ≠ CR) (cleanCell options c).
Proof.
  unfold cleanCell. destruct (trim options).
  - apply str_trim_Forall, normalizeLineEndings_no_CR.
  - apply normalizeLineEndings_no_CR.
Qed.

(** X1. What step 2 makes of a cell holds no carriage return, and step 2
    leaves such a result as it is: cleaning a cleaned cell changes
    nothing. *)
Theorem cleanCell_idempotent (options : Options) (c : cell) :
  Forall (λ u, u ≠ CR) (cleanCell options c)
  ∧ cleanCell options (CStr (cleanCell options c)) = cleanCell options c.
Proof.
  split; [apply cleanCell_no_CR|].
  pose proof (cleanCell_no_CR options c) as Hcr.
  unfold cleanCell in *. simpl.
  destruct (trim options).
  - rewrite (normalizeLineEndings_fix (str_trim _)) by done.
    destruct (str_trim_ends (normalizeLineEndings (safeCellText c))).
    by apply str_trim_fix.
  - by rewrite (normalizeLineEndings_fix (normalizeLineEndings _)).
Qed.

(** A property of cells that the empty string, the cells of step 2 and
    the normalized header cells have holds of every cell of the cleaned
    grid. *)
Section CellInvariant.

Variable host : Host.
Variable options : Options.
Variable P : jsstring → Prop.
Hypothesis P_empty : P [].
Hypothesis P_clean : ∀ c, P (cleanCell options c).
Hypothesis P_header :
  normalizeHeader options = true → ∀ c, P (normalizeHeaderValue host c).

Lemma cleanRow_foldl_cells data : ∀ rows stats,
  Forall (Forall P) rows →
  Forall (Forall P) (foldl (cleanRow options) (rows, stats) data).1.
Proof.
  induction data as [|r data IH]; intros rows stats Hrows; [done|].
  cbn [foldl]. unfold cleanRow at 2.
  destruct (removeEmpty options && isEmptyRow _); [by apply IH|].
  apply IH. apply Forall_app. split; [done|]. constructor; [|done].
  apply Forall_fmap, Forall_true. intros c. apply P_clean.
Qed.

Lemma fixColumnCounts_cells rows stats rows' stats' :
  Forall (Forall P) rows →
  fixColumnCounts options rows stats = Ok (rows', stats') →
  Forall (Forall P) rows'.
Proof.
  intros Hrows. unfold fixColumnCounts.
  destruct (fixColumns options); [|by intros [= <- <-]].
  destruct (rows !! 0%nat) as [first|]; [|done].
  destruct (fixRow_foldl (length first) rows [] stats) as (out & -> & Hrec).
  intros [= <- <-]. clear -Hrec Hrows P_empty.
  induction Hrec as [|r r' rows out [_ Hr] Hrec IH]; [done|].
  inversion Hrows as [|?? Hr0 Hrows0]; subst.
  constructor; [|by apply IH].
  destruct Hr as [[_ ->]|[[_ ->]|[_ ->]]]; [by apply Forall_take| |done].
  apply Forall_app. split; [done|]. by apply Forall_replicate.
Qed.

Lemma normalizeHeaderRow_cells rows rows' :
  Forall (Forall P) rows →
  normalizeHeaderRow host options rows = Ok rows' →
  Forall (Forall P) rows'.
Proof.
  intros Hrows. unfold normalizeHeaderRow.
  destruct (normalizeHeader options) eqn:Hon; [|by intros [= <-]].
  destruct (rows !! 0%nat) as [header|]; [|done].
  intros [= <-]. apply Forall_insert; [done|].
  apply Forall_fmap, Forall_true. intros c. by apply P_header.
Qed.

Lemma dedupeRows_cells rows stats rows' stats' :
  Forall (Forall P) rows →
  dedupeRows options rows stats = Ok (rows', stats') →
  Forall (Forall P) rows'.
Proof.
  intros Hrows. unfold dedupeRows.
  destruct (dedupe options); [|by intros [= <- <-]].
  destruct rows as [|header rest]; [done|].
  cbn [lookup list_lookup drop]. rewrite drop_0.
  destruct (dedupeLoop_spec header rest stats)
    as (kept & stats1 & -> & Hsub & _).
  intros [= <- <-]. inversion Hrows as [|?? Hh Hrest]; subst.
  constructor; [done|]. rewrite Forall_forall in Hrest |- *.
  intros r Hin. apply Hrest. by eapply elem_of_sublist.
Qed.

Lemma cleanData_cells st st' out :
  cleanData host options st = (Ok tt, st') →
  cleanedData st' = Some out →
  Forall (Forall P) out.
Proof.
  intros (original & first & others & stats1 & out' & stats' & Horig & Hrows
          & Hfin & Hout & Hstats)%cleanData_ok_inv.
  rewrite Hout. intros [= <-].
  assert (Forall (Forall P) (first :: others)) as Hcells.
  { pose proof (cleanRow_foldl_cells (stripBomResidue original) [] zeroStats
                  (Forall_nil_2 _)) as H.
    unfold cleanRows in Hrows. by rewrite Hrows in H. }
  revert Hfin. unfold finishRows.
  destruct (fixColumnCounts options (first :: others) stats1)
    as [[rows1 stats2]|] eqn:E1; [|done].
  simpl. destruct (normalizeHeaderRow host options rows1)
    as [rows2|] eqn:E2; [|done].
  simpl. intros E3.
  eapply dedupeRows_cells; [|exact E3].
  eapply normalizeHeaderRow_cells; [|exact E2].
  by eapply fixColumnCounts_cells.
Qed.

End CellInvariant.

Lemma headerNormal_no_CR s : headerNormal s → Forall (λ c, c ≠ CR) s.
Proof.
  intros [Hall _]. eapply Forall_impl; [exact Hall|].
  intros c Hc ->. by vm_compute in Hc.
Qed.

Lemma headerNormal_ends s :
  headerNormal s → headFree isWhiteSpace s ∧ lastFree isWhiteSpace s.
Proof.
  intros [Hall _].
  assert (Forall (λ c, isWhiteSpace c = false) s) as Hws.
  { eapply Forall_impl; [exact Hall|]. apply isHeaderChar_not_space. }
  split; [by apply free_headFree|by apply free_lastFree].
Qed.

(** X2. Whatever the options and the host, no cell of the cleaned grid
    holds a carriage return. *)
Theorem cleaned_cells_hold_no_carriage_return (host : Host)
    (options : Options) (st st' : State) (out : grid) :
  cleanData host options st = (Ok tt, st') →
  cleanedData st' = Some out →
  Forall (Forall (Forall (λ c, c ≠ CR))) out.
Proof.
  apply cleanData_cells.
  - constructor.
  - apply cleanCell_no_CR.
  - intros _ c. apply headerNormal_no_CR, normalizeHeaderValue_headerNormal.
Qed.

(** X3. With [trim] on, no cell of the cleaned grid begins or ends with
    white space. *)
Theorem cleaned_cells_are_trimmed (host : Host) (options : Options)
    (st st' : State) (out : grid) :
  trim options = true →
  cleanData host options st = (Ok tt, st') →
  cleanedData st' = Some out →
  Forall (Forall (λ c, headFree isWhiteSpace c ∧ lastFree isWhiteSpace c)) out.
Proof.
  intros Htrim. apply cleanData_cells.
  - done.
  - intros c. unfold cleanCell. rewrite Htrim. apply str_trim_ends.
  - intros _ c. apply headerNormal_ends, normalizeHeaderValue_headerNormal.
Qed.

(** ** Toggles that are off *)

Lemma stripBomResidue_length data :
  length (stripBomResidue data) = length data.
Proof.
  unfold stripBomResidue. destruct data as [|r0 data]; [done|].
  simpl. by destruct r0 as [|[]].
Qed.

Lemma cleanRow_foldl_keep_all options (data : list (list cell)) :
  removeEmpty options = false →
  ∀ rows stats,
    foldl (cleanRow options) (rows, stats) data
    = (rows ++ ((λ r : list cell, cleanCell options <$> r) <$> data), stats).
Proof.
  intros Hoff. induction data as [|r data IH]; intros rows stats.
  { simpl. by rewrite app_nil_r. }
  cbn [foldl]. unfold cleanRow at 2. rewrite Hoff. simpl.
  rewrite IH, <- app_assoc. done.
Qed.

(** Steps 3 to 5 move only the counters of the steps that are on. *)
Lemma finishRows_stats host options first others stats out stats' :
  finishRows host options (first :: others) stats = Ok (out, stats') →
  removedEmpty stats' = removedEmpty stats
  ∧ (fixColumns options = false →
     trimmedColumns stats' = trimmedColumns stats
     ∧ paddedColumns stats' = paddedColumns stats)
  ∧ (dedupe options = false →
     duplicatesRemoved stats' = duplicatesRemoved stats).
Proof.
  destruct (fixColumnCounts_first options first others stats)
    as (rest1 & stats1 & E1 & _ & Hdup1 & Hrem1 & _).
  rewrite (finishRows_steps _ _ _ _ _ _ _ E1).
  assert (fixColumns options = false → stats1 = stats) as Hsame.
  { intros Hoff. revert E1. unfold fixColumnCounts. rewrite Hoff.
    by intros [= _ <-]. }
  destruct (dedupe options) eqn:Hded.
  - destruct (dedupeLoop_spec (headerOf host options first) rest1 stats1)
      as (kept & stats2 & E & _ & _ & _ & _ & Hrem & Htr & Hpa).
    rewrite dedupeRows_on, E by done. simpl. intros [= <- <-].
    split_and!; [congruence| |done].
    intros ->%Hsame. done.
  - unfold dedupeRows. rewrite Hded. intros [= <- <-].
    split_and!; [done| |done]. by intros ->%Hsame.
Qed.

(** X4. A step that is off counts nothing: after a successful run,
    [removedEmpty] is 0 if [removeEmpty] is off, [trimmedColumns] and
    [paddedColumns] are 0 if [fixColumns] is off, and
    [duplicatesRemoved] is 0 if [dedupe] is off. *)
Theorem disabled_steps_count_nothing (host : Host) (options : Options)
    (st st' : State) (stats : Stats) :
  cleanData host options st = (Ok tt, st') →
  lastStats st' = Some stats →
  (removeEmpty options = false → removedEmpty stats = 0%nat)
  ∧ (fixColumns options = false →
     trimmedColumns stats = 0%nat ∧ paddedColumns stats = 0%nat)
  ∧ (dedupe options = false → duplicatesRemoved stats = 0%nat).
Proof.
  intros (original & first & others & stats1 & out & stats' & Horig & Hrows
          & Hfin & Hout & Hstats)%cleanData_ok_inv.
  rewrite Hstats. intros [= <-].
  destruct (cleanRows_length _ _ _ _ _ Hrows) as (_ & Hdup & Htr & Hpa).
  destruct (finishRows_stats _ _ _ _ _ _ _ Hfin) as (Hrem' & Hfix' & Hded').
  simpl in *. split_and!.
  - intros Hoff. revert Hrows. unfold cleanRows.
    rewrite cleanRow_foldl_keep_all by done. intros [= _ <-]. by rewrite Hrem'.
  - intros [-> ->]%Hfix'. done.
  - intros ->%Hded'. done.
Qed.

(** X5. With [removeEmpty] off, [cleanData] succeeds on every parsed
    grid that has a row: it counts no empty row, and the rows of the
    cleaned grid and the duplicates removed add up to the parsed rows. *)
Theorem cleanData_succeeds_without_removeEmpty (host : Host)
    (options : Options) (st : State) (data : list (list cell)) :
  removeEmpty options = false →
  originalData st = Some data →
  data ≠ [] →
  ∃ st' out stats,
    cleanData host options st = (Ok tt, st')
    ∧ cleanedData st' = Some out
    ∧ lastStats st' = Some stats
    ∧ removedEmpty stats = 0%nat
    ∧ (length out + duplicatesRemoved stats = length data)%nat.
Proof.
  intros Hoff Horig Hne. rewrite cleanData_eq, Horig.
  destruct data as [|r0 data]; [done|].
  unfold cleanRows. rewrite cleanRow_foldl_keep_all by done. simpl.
  pose proof (stripBomResidue_length (r0 :: data)) as Hlen.
  destruct (stripBomResidue (r0 :: data)) as [|r0' data'] eqn:Hstrip;
    [done|].
  simpl in Hlen. rewrite fmap_cons.
  destruct (finishRows_spec host options (cleanCell options <$> r0')
              ((λ r : list cell, cleanCell options <$> r) <$> data') zeroStats)
    as (rest & stats' & -> & Hcount & Hrem).
  rewrite length_fmap in Hcount. simpl in Hcount, Hrem.
  eexists _, _, _. split; [done|]. simpl. split_and!; try done.
  simpl. lia.
Qed.

Lemma cleanCell_plain options (c : jsstring) :
  trim options = false →
  Forall (λ u, u ≠ CR) c →
  cleanCell options (CStr c) = c.
Proof.
  intros Hoff Hcr. unfold cleanCell. rewrite Hoff. simpl.
  by apply normalizeLineEndings_fix.
Qed.

(** X6. With every toggle off, a grid of strings that hold no carriage
    return and whose first cell does not begin with a BOM is returned
    as it is, and every counter is 0. *)
Theorem cleanData_changes_nothing_when_all_off (host : Host)
    (options : Options) (st : State) (g : grid) :
  noToggle options →
  originalData st = Some (asCells g) →
  g ≠ [] →
  Forall (Forall (Forall (λ c, c ≠ CR))) g →
  (∀ r0 c0, g !! 0%nat = Some r0 → r0 !! 0%nat = Some c0 →
            head c0 ≠ Some BOM) →
  cleanData host options st
  = (Ok tt,
     {| encodingUsed := encodingUsed st;
        encodingHasIssues := encodingHasIssues st;
        originalData := originalData st;
        cleanedData := Some g;
        rowsBefore := rowsBefore st;
        rowsAfter := length g;
        lastStats := Some zeroStats |}).
Proof.
  intros (Htrim & Hrem & Hfix & Hded & Hnorm) Horig Hne Hcr Hbom.
  assert (stripBomResidue (asCells g) = asCells g) as Hstrip.
  { destruct g as [|r0 g']; [done|]. unfold stripBomResidue, asCells.
    destruct r0 as [|c0 r0']; [done|]. simpl.
    specialize (Hbom (c0 :: r0') c0 eq_refl eq_refl).
    destruct c0 as [|u c0']; [done|]. simpl.
    destruct (N.eqb_spec u BOM) as [->|_]; [done|done]. }
  assert ((λ r : list cell, cleanCell options <$> r) <$> asCells g = g) as Hclean.
  { unfold asCells. clear -Hcr Htrim.
    induction Hcr as [|r g' Hr Hg IH]; [done|].
    rewrite !fmap_cons, IH. f_equal.
    clear -Hr Htrim. induction Hr as [|c r' Hc Hr' IH]; [done|].
    rewrite !fmap_cons, IH, cleanCell_plain by done. done. }
  rewrite cleanData_eq, Horig.
  destruct g as [|r0 g']; [done|].
  change (asCells (r0 :: g')) with ((CStr <$> r0) :: asCells g') in *.
  rewrite Hstrip. unfold cleanRows.
  rewrite cleanRow_foldl_keep_all, Hclean by done. simpl.
  unfold finishRows, fixColumnCounts, normalizeHeaderRow, dedupeRows.
  rewrite Hfix, Hnorm, Hded. done.
Qed.

(** ** Row keys *)

Lemma app_separator_inj (a b x y : jsstring) :
  Forall (λ c, c ≠ SOH) a → Forall (λ c, c ≠ SOH) b →
  a ++ SOH :: x = b ++ SOH :: y → a = b ∧ x = y.
Proof.
  intros Ha. revert b. induction Ha as [|c a Hc Ha IH]; intros b Hb E.
  - destruct Hb as [|d b Hd Hb]; simpl in E.
    + by injection E as ->.
    + injection E as E _. congruence.
  - destruct Hb as [|d b Hd Hb]; simpl in E.
    + injection E as E _. congruence.
    + injection E as -> E. destruct (IH b Hb E) as [-> ->]. done.
Qed.

Lemma join_cons2 (c c' : jsstring) (r : row) :
  join [SOH] (c :: c' :: r) = c ++ SOH :: join [SOH] (c' :: r).
Proof. done. Qed.

Lemma rowKey_inj (r1 r2 : row) :
  r1 ≠ [] → r2 ≠ [] →
  separatorFree r1 → separatorFree r2 →
  rowKey r1 = rowKey r2 → r1 = r2.
Proof.
  unfold rowKey, separatorFree. intros Hne1 Hne2 Hfree1. revert r2 Hne2.
  induction Hfree1 as [|c1 r1 Hc1 Hr1 IH]; [done|].
  intros r2 Hne2 Hfree2 E. destruct Hfree2 as [|c2 r2 Hc2 Hr2]; [done|].
  destruct r1 as [|c1' r1], r2 as [|c2' r2].
  - simpl in E. by rewrite E.
  - rewrite join_cons2 in E. simpl in E. subst c1.
    apply Forall_app in Hc1 as [_ Hc1]. by inversion Hc1.
  - rewrite join_cons2 in E. simpl in E. subst c2.
    apply Forall_app in Hc2 as [_ Hc2]. by inversion Hc2.
  - rewrite !join_cons2 in E.
    destruct (app_separator_inj _ _ _ _ Hc1 Hc2 E) as [-> E'].
    f_equal. by apply IH.
Qed.

(** X7. Rows that have a cell each and whose cells hold no U+0001 have
    the same key only if they are the same row. *)
Theorem rowKey_injective (r1 r2 : row) :
  r1 ≠ [] → r2 ≠ [] →
  separatorFree r1 → separatorFree r2 →
  rowKey r1 = rowKey r2 → r1 = r2.
Proof. apply rowKey_inj. Qed.

(** Every key the loop has seen is the key of a row it has kept. *)
Lemma dedupeRow_foldl_seen rest : ∀ seen deduped stats,
  (∀ k, k ∈ seen → k ∈ rowKey <$> deduped) →
  ∀ k, k ∈ (foldl dedupeRow (seen, deduped, stats) rest).1.1 →
       k ∈ rowKey <$> (foldl dedupeRow (seen, deduped, stats) rest).1.2.
Proof.
  induction rest as [|r rest IH]; intros seen deduped stats Hinv; [done|].
  cbn [foldl]. unfold dedupeRow at 2 4. case_bool_decide as Hseen.
  - by apply IH.
  - apply IH. intros k [->%elem_of_singleton|Hk]%elem_of_union;
      rewrite fmap_app, elem_of_app.
    + right. rewrite list_fmap_singleton. by left.
    + left. by apply Hinv.
Qed.

(** X8. With [dedupe] on and rows that have a cell each and hold no
    U+0001, step 5 loses no row: every row of rows 1..end is the header
    or is kept, no row is kept twice, the kept rows stand in their
    order, and [duplicatesRemoved] grows by the number of rows
    dropped. *)
Theorem dedupe_loses_no_distinct_row (options : Options) (header : row)
    (rest : grid) (stats : Stats) :
  dedupe options = true →
  Forall (λ r, r ≠ [] ∧ separatorFree r) (header :: rest) →
  ∃ kept stats',
    dedupeRows options (header :: rest) stats = Ok (header :: kept, stats')
    ∧ sublist kept rest
    ∧ NoDup (header :: kept)
    ∧ (∀ r, r ∈ rest → r ∈ header :: kept)
    ∧ (duplicatesRemoved stats' + length kept
       = duplicatesRemoved stats + length rest)%nat.
Proof.
  intros Hon Hrows.
  destruct (dedupeLoop_spec header rest stats)
    as (kept & stats' & E & Hsub & _ & Hnodup & Hcount & _).
  exists kept, stats'. rewrite dedupeRows_on, E by done. simpl.
  split_and!; try done.
  { by apply NoDup_fmap_1 in Hnodup. }
  intros r Hin.
  pose proof (dedupeRow_foldl_seen rest {[rowKey header]} [header] stats)
    as Hseen.
  unfold dedupeLoop in E. rewrite E in Hseen. simpl in Hseen.
  assert (rowKey r ∈ rowKey <$> header :: kept) as Hkept.
  { apply Hseen.
    - intros k ->%elem_of_singleton. left.
    - apply elem_of_union. right. apply elem_of_list_to_set.
      by apply list_elem_of_fmap_2. }
  apply list_elem_of_fmap in Hkept as (r' & Hkey & Hin').
  assert (r' ∈ header :: rest) as Hin''.
  { apply elem_of_cons in Hin' as [->|Hin']; [left|right].
    by eapply elem_of_sublist. }
  rewrite Forall_forall in Hrows.
  destruct (Hrows r ltac:(by right)) as [Hne Hfree].
  destruct (Hrows r' Hin'') as [Hne' Hfree'].
  by rewrite (rowKey_inj r r').
Qed.

(** Rows with fresh and pairwise distinct keys are all kept. *)
Lemma dedupeRow_foldl_fresh rest : ∀ seen deduped stats,
  NoDup (rowKey <$> rest) →
  (∀ r, r ∈ rest → rowKey r ∉ seen) →
  foldl dedupeRow (seen, deduped, stats) rest
  = (seen ∪ list_to_set (rowKey <$> rest), deduped ++ rest, stats).
Proof.
  induction rest as [|r rest IH]; intros seen deduped stats Hnodup Hfresh.
  { simpl. by rewrite app_nil_r, union_empty_r_L. }
  cbn [foldl]. unfold dedupeRow at 2.
  rewrite fmap_cons in Hnodup. apply NoDup_cons in Hnodup as [Hr Hnodup].
  rewrite bool_decide_false by (apply Hfresh; left).
  rewrite IH; [|done|].
  - rewrite <- app_assoc. simpl. f_equal. f_equal. set_solver.
  - intros r' Hin [Heq%elem_of_singleton|Hs]%elem_of_union.
    + apply Hr. rewrite <- Heq. by apply list_elem_of_fmap_2.
    + apply (Hfresh r'); [by right|done].
Qed.

Lemma dedupeRows_fix options header kept stats :
  NoDup (rowKey <$> header :: kept) →
  dedupeRows options (header :: kept) stats = Ok (header :: kept, stats).
Proof.
  intros Hnodup. unfold dedupeRows. destruct (dedupe options); [|done].
  cbn [lookup list_lookup drop]. rewrite drop_0. unfold dedupeLoop.
  rewrite fmap_cons in Hnodup. apply NoDup_cons in Hnodup as [Hh Hnodup].
  rewrite dedupeRow_foldl_fresh; [done|done|].
  intros r Hin Heq%elem_of_singleton. apply Hh. rewrite <- Heq.
  by apply list_elem_of_fmap_2.
Qed.

(** X9. Step 5 applied to its own output drops nothing and counts
    nothing. *)
Theorem dedupeRows_idempotent (options : Options) (rows out : grid)
    (stats stats' stats'' : Stats) :
  dedupeRows options rows stats = Ok (out, stats') →
  dedupeRows options out stats'' = Ok (out, stats'').
Proof.
  unfold dedupeRows at 1. destruct (dedupe options) eqn:Hon.
  - destruct rows as [|header rest]; [done|].
    cbn [lookup list_lookup drop]. rewrite drop_0.
    destruct (dedupeLoop_spec header rest stats)
      as (kept & stats1 & -> & _ & _ & Hnodup & _).
    intros [= <- <-]. by apply dedupeRows_fix.
  - intros [= <- <-]. unfold dedupeRows. by rewrite Hon.
Qed.

Lemma fixRow_foldl_same n rows :
  Forall (λ r, length r = n) rows →
  ∀ acc stats, foldl (fixRow n) (acc, stats) rows = (acc ++ rows, stats).
Proof.
  induction 1 as [|r rows Hr Hrows IH]; intros acc stats.
  { simpl. by rewrite app_nil_r. }
  cbn [foldl]. unfold fixRow at 2.
  replace (Z.of_nat (length r) - Z.of_nat n =? 0)%Z with true
    by (symmetry; apply Z.eqb_eq; lia).
  by rewrite IH, <- app_assoc.
Qed.

Lemma fixColumnCounts_fix options first rest stats :
  Forall (λ r, length r = length first) rest →
  fixColumnCounts options (first :: rest) stats = Ok (first :: rest, stats).
Proof.
  intros Hall. unfold fixColumnCounts. destruct (fixColumns options); [|done].
  cbn [lookup list_lookup]. rewrite fixRow_foldl_same; [done|].
  by constructor.
Qed.

(** X10. Step 3 applied to its own output changes no row and counts
    nothing. *)
Theorem fixColumnCounts_idempotent (options : Options) (rows out : grid)
    (stats stats' stats'' : Stats) :
  fixColumnCounts options rows stats = Ok (out, stats') →
  fixColumnCounts options out stats'' = Ok (out, stats'').
Proof.
  unfold fixColumnCounts at 1. destruct (fixColumns options) eqn:Hon.
  - destruct (rows !! 0%nat) as [first|] eqn:Hfirst; [|done].
    destruct (fixRow_foldl (length first) rows [] stats) as (out' & -> & Hrec).
    intros [= <- <-]. simpl.
    destruct Hrec as [|r r' rows' out' [Hlen _] Hrec]; [done|].
    apply fixColumnCounts_fix. rewrite Hlen.
    clear -Hrec. induction Hrec as [|???? [H _]]; by constructor.
  - intros [= <- <-]. unfold fixColumnCounts. by rewrite Hon.
Qed.

(** ** Cleaning what has been cleaned *)

Lemma cleanRow_foldl_keep options (data : list (list cell)) :
  Forall (λ r, removeEmpty options && isEmptyRow (cleanCell options <$> r)
               = false) data →
  ∀ rows stats,
    foldl (cleanRow options) (rows, stats) data
    = (rows ++ ((λ r : list cell, cleanCell options <$> r) <$> data), stats).
Proof.
  induction 1 as [|r data Hr Hdata IH]; intros rows stats.
  { simpl. by rewrite app_nil_r. }
  cbn [foldl]. unfold cleanRow at 2. rewrite Hr.
  rewrite IH, <- app_assoc. done.
Qed.

Lemma headerOf_fix host options first :
  lowerCaseFixesHeaderChars host →
  headerOf host options (headerOf host options first)
  = headerOf host options first.
Proof.
  intros Hlow. unfold headerOf. destruct (normalizeHeader options); [|done].
  rewrite <- list_fmap_compose. apply list_fmap_ext. intros _ c _. simpl.
  apply normalizeHeaderValue_fix; [done|].
  apply normalizeHeaderValue_headerNormal.
Qed.

(** What steps 3 to 5 return: a header, rows of its length if
    [fixColumns] is on, keys that differ if [dedupe] is on. *)
Lemma finishRows_shape host options first others stats out stats' :
  finishRows host options (first :: others) stats = Ok (out, stats') →
  ∃ rest,
    out = headerOf host options first :: rest
    ∧ (fixColumns options = true →
       Forall (λ r, length r = length first) rest)
    ∧ (dedupe options = true → NoDup (rowKey <$> out)).
Proof.
  destruct (fixColumnCounts_first options first others stats)
    as (rest1 & stats1 & E1 & _ & _ & _ & Hon).
  rewrite (finishRows_steps _ _ _ _ _ _ _ E1).
  destruct (dedupe options) eqn:Hded.
  - destruct (dedupeLoop_spec (headerOf host options first) rest1 stats1)
      as (kept & stats2 & E & Hsub & _ & Hnodup & _).
    rewrite dedupeRows_on, E by done. simpl. intros [= <- <-].
    exists kept. split_and!; [done| |done].
    intros Hfix. destruct (Hon Hfix) as [Hall _].
    rewrite Forall_forall in Hall |- *.
    intros r Hin. apply Hall. by eapply elem_of_sublist.
  - unfold dedupeRows. rewrite Hded. intros [= <- <-].
    exists rest1. split_and!; [done| |done].
    intros Hfix. by destruct (Hon Hfix).
Qed.

Lemma finishRows_fix host options header rest stats :
  lowerCaseFixesHeaderChars host →
  headerOf host options header = header →
  (fixColumns options = true →
   Forall (λ r, length r = length header) rest) →
  (dedupe options = true → NoDup (rowKey <$> header :: rest)) →
  finishRows host options (header :: rest) stats = Ok (header :: rest, stats).
Proof.
  intros Hlow Hhdr Hlen Hnodup.
  assert (fixColumnCounts options (header :: rest) stats
          = Ok (header :: rest, stats)) as E1.
  { destruct (fixColumns options) eqn:Hfix.
    - by apply fixColumnCounts_fix, Hlen.
    - unfold fixColumnCounts. by rewrite Hfix. }
  rewrite (finishRows_steps _ _ _ _ _ _ _ E1), Hhdr.
  destruct (dedupe options) eqn:Hded.
  - by apply dedupeRows_fix, Hnodup.
  - unfold dedupeRows. by rewrite Hded.
Qed.

(** X11. On a host whose lower-casing leaves strings over [a-z0-9_]
    unchanged, steps 3 to 5 applied to their own output return it
    unchanged and count nothing. *)
Theorem finishRows_idempotent (host : Host) (options : Options)
    (first : row) (others out : grid) (stats stats' stats'' : Stats) :
  lowerCaseFixesHeaderChars host →
  finishRows host options (first :: others) stats = Ok (out, stats') →
  finishRows host options out stats'' = Ok (out, stats'').
Proof.
  intros Hlow (rest & -> & Hlen & Hnodup)%finishRows_shape.
  apply finishRows_fix; [done|by apply headerOf_fix| |done].
  intros Hfix. rewrite headerOf_length. by apply Hlen.
Qed.

(** X12. With [normalizeHeader] on, every cell of row 0 of the cleaned
    grid consists of units of [a-z0-9_], with no two underscores in a
    row and none at either end. *)
Theorem cleaned_header_is_normalized (host : Host) (options : Options)
    (st st' : State) :
  normalizeHeader options = true →
  cleanData host options st = (Ok tt, st') →
  ∃ header rest,
    cleanedData st' = Some (header :: rest)
    ∧ Forall headerNormal header.
Proof.
  intros Hon
    (original & first & others & stats1 & out & stats' & Horig & Hrows
     & Hfin & Hout & Hstats)%cleanData_ok_inv.
  apply finishRows_shape in Hfin as (rest & -> & _).
  exists (headerOf host options first), rest. split; [done|].
  unfold headerOf. rewrite Hon. apply Forall_fmap, Forall_true.
  intros c. apply normalizeHeaderValue_headerNormal.
Qed.

Lemma cleanCell_fix options (c : jsstring) :
  Forall (λ u, u ≠ CR) c →
  (trim options = true →
   headFree isWhiteSpace c ∧ lastFree isWhiteSpace c) →
  cleanCell options (CStr c) = c.
Proof.
  intros Hcr Hends. unfold cleanCell. simpl.
  rewrite normalizeLineEndings_fix by done.
  destruct (trim options); [|done].
  destruct (Hends eq_refl). by apply str_trim_fix.
Qed.

(** X13. Cleaning the cleaned grid once more, with the same options,
    returns it unchanged with every counter at 0, provided the host's
    lower-casing leaves strings over [a-z0-9_] unchanged, [trim] is on
    and, if [removeEmpty] is on, the cleaned grid has no blank row. *)
Theorem cleanData_idempotent (host : Host) (options : Options)
    (st st' st2 : State) (out : grid) :
  lowerCaseFixesHeaderChars host →
  trim options = true →
  cleanData host options st = (Ok tt, st') →
  cleanedData st' = Some out →
  (removeEmpty options = true → Forall (λ r, isEmptyRow r = false) out) →
  originalData st2 = Some (asCells out) →
  cleanData host options st2
  = (Ok tt,
     {| encodingUsed := encodingUsed st2;
        encodingHasIssues := encodingHasIssues st2;
        originalData := originalData st2;
        cleanedData := Some out;
        rowsBefore := rowsBefore st2;
        rowsAfter := length out;
        lastStats := Some zeroStats |}).
Proof.
  intros Hlow Htrim Hrun Hout Hblank Horig2.
  pose proof (cleanData_cells host options
    (λ c, Forall (λ u, u ≠ CR) c
          ∧ headFree isWhiteSpace c ∧ lastFree isWhiteSpace c)) as Hcells.
  specialize (Hcells ltac:(done)).
  specialize (Hcells ltac:(intros c; split; [apply cleanCell_no_CR|];
    unfold cleanCell; rewrite Htrim; apply str_trim_ends)).
  specialize (Hcells ltac:(intros _ c; split;
    [apply headerNormal_no_CR|apply headerNormal_ends];
    apply normalizeHeaderValue_headerNormal)).
  specialize (Hcells st st' out Hrun Hout).
  assert ((λ r : list cell, cleanCell options <$> r) <$> asCells out = out)
    as Hclean.
  { unfold asCells. clear -Hcells.
    induction Hcells as [|r g' Hr Hg IH]; [done|].
    rewrite !fmap_cons, IH. f_equal.
    clear -Hr. induction Hr as [|c r' (Hcr & Hh & Hl) Hr' IH]; [done|].
    rewrite !fmap_cons, IH, cleanCell_fix by done. done. }
  assert (stripBomResidue (asCells out) = asCells out) as Hstrip.
  { destruct Hcells as [|r0 g' Hr0 _]; [done|].
    unfold stripBomResidue, asCells.
    destruct Hr0 as [|c0 r0' (_ & Hh & _) _]; [done|]. simpl.
    destruct c0 as [|u c0']; [done|]. simpl in Hh |- *.
    destruct (N.eqb_spec u BOM) as [->|_]; [by vm_compute in Hh|done]. }
  assert (Forall (λ r, removeEmpty options
                        && isEmptyRow (cleanCell options <$> r) = false)
            (asCells out)) as Hkeep.
  { destruct (removeEmpty options) eqn:Hrem; [|by apply Forall_true].
    specialize (Hblank eq_refl). unfold asCells.
    apply Forall_fmap. eapply Forall_impl;
      [apply Forall_and; split; [exact Hblank|exact Hcells]|].
    intros r [Hr Hcr]. simpl.
    replace (cleanCell options <$> (CStr <$> r)) with r; [done|].
    clear -Hcr. induction Hcr as [|c r' (Hcr & Hh & Hl) Hr' IH]; [done|].
    rewrite !fmap_cons, <- IH, cleanCell_fix by done. done. }
  apply cleanData_ok_inv in Hrun
    as (original & first & others & stats1 & out' & stats' & _ & _
        & Hfin & Hout' & _).
  rewrite Hout in Hout'. injection Hout' as <-.
  destruct (finishRows_shape _ _ _ _ _ _ _ Hfin)
    as (rest & Hshape & Hlen & Hnodup).
  rewrite cleanData_eq, Horig2.
  destruct (asCells out) as [|r0 d] eqn:Has; [by rewrite Hshape in Has|].
  rewrite Hstrip. unfold cleanRows.
  rewrite cleanRow_foldl_keep, Hclean by done. simpl.
  rewrite Hshape in *.
  rewrite finishRows_fix; [done|done|by apply headerOf_fix| |done].
  intros Hfix. rewrite headerOf_length. by apply Hlen.
Qed.

(** ** The resolver's record *)

Lemma countReplacements_stripLeadingBOM t :
  countReplacements (stripLeadingBOM t) = countReplacements t.
Proof.
  destruct t as [|c t]; [done|]. simpl.
  destruct (N.eqb_spec c BOM) as [->|_]; [|done].
  unfold countReplacements. rewrite filter_cons. by rewrite decide_False.
Qed.

Lemma selectBest_inv host buffer best :
  selectBest host buffer = Ok best →
  replacementCount best = Finite (countReplacements (text best))
  ∧ encoding best ∈ encodingsToTry.
Proof.
  unfold selectBest, fallbackIfEmpty.
  destruct (tryEncodings_origin host buffer encodingsToTry initialBest)
    as [E|(e & t & Hin & Hdec & E)]; unfold tryEncodings; rewrite E; simpl.
  - destruct (decodeDefault host buffer) as [t|]; [|done].
    intros [= <-]. simpl. split; [done|left].
  - destruct t as [|c t].
    + destruct (decodeDefault host buffer) as [t|]; [|done].
      intros [= <-]. simpl. split; [done|left].
    + intros [= <-]. done.
Qed.

Lemma resolver_count_text_aux host buffer best :
  hasTextDecoder host = true →
  readFileWithBestEncoding host buffer = Ok best →
  replacementCount best = Finite (countReplacements (text best)).
Proof.
  intros Hdec. unfold readFileWithBestEncoding. rewrite Hdec.
  destruct (selectBest host buffer) as [b|] eqn:E; [|done].
  simpl. intros [= <-]. simpl.
  rewrite countReplacements_stripLeadingBOM.
  by apply selectBest_inv in E as [-> _].
Qed.

(** X14. On a host that has [TextDecoder], the count the resolver
    reports is the number of U+FFFD in the text it returns. *)
Theorem resolver_count_matches_text (host : Host) (buffer : list byte)
    (best : Best) :
  hasTextDecoder host = true →
  readFileWithBestEncoding host buffer = Ok best →
  replacementCount best = Finite (countReplacements (text best)).
Proof. apply resolver_count_text_aux. Qed.

(** X15. The encoding the resolver reports is one of utf-8,
    windows-1252 and iso-8859-1.  Given the buffer, the resolver rejects
    in two cases only: on a host that has [TextDecoder], when no
    candidate gave a text that is not empty and the default decoder
    throws; on a host that has none, when the text reader fails. *)
Theorem resolver_outcomes (host : Host) (buffer : list byte) :
  (∀ best, readFileWithBestEncoding host buffer = Ok best →
           encoding best ∈ encodingsToTry)
  ∧ (∀ e, readFileWithBestEncoding host buffer = Err e ↔
          (hasTextDecoder host = true ∧ e = HostError
           ∧ text (tryEncodings host buffer encodingsToTry) = []
           ∧ decodeDefault host buffer = None)
          ∨ (hasTextDecoder host = false ∧ e = ReadError
             ∧ readAsText host buffer = None)).
Proof.
  unfold readFileWithBestEncoding.
  destruct (hasTextDecoder host).
  - split.
    + intros best. destruct (selectBest host buffer) as [b|] eqn:E; [|done].
      simpl. intros [= <-]. simpl. by apply selectBest_inv in E as [_ ?].
    + intros e. unfold selectBest, fallbackIfEmpty.
      destruct (text (tryEncodings host buffer encodingsToTry)) as [|c t].
      * destruct (decodeDefault host buffer); simpl.
        -- split; [done|]. by intros [(_ & _ & _ & ?)|(? & _)].
        -- split; [intros [= <-]; by left|].
           by intros [(_ & -> & _)|(? & _)].
      * simpl. split; [done|]. by intros [(_ & _ & ? & _)|(? & _)].
  - split.
    + intros best. destruct (readAsText host buffer); [|done].
      intros [= <-]. left.
    + intros e. destruct (readAsText host buffer).
      * split; [done|]. by intros [(? & _)|(_ & _ & ?)].
      * split; [intros [= <-]; by right|].
        by intros [(? & _)|(_ & -> & _)].
Qed.

(** ** [handleFileChange] and [handleCleanClick] *)

(** X16. Whatever the file and whether or not it is read and parsed,
    [handleFileChange] leaves no cleaned grid and no summary behind;
    when it fails or there is no file, it leaves no parsed rows either
    and [rowsBefore] is 0. *)
Theorem upload_discards_earlier_results (host : Host)
    (file : option (list byte)) (st : State) :
  cleanedData (handleFileChange host file st).2 = None
  ∧ rowsAfter (handleFileChange host file st).2 = 0%nat
  ∧ lastStats (handleFileChange host file st).2 = None
  ∧ ((handleFileChange host file st).1 ≠ Ok tt ∨ file = None →
     originalData (handleFileChange host file st).2 = None
     ∧ rowsBefore (handleFileChange host file st).2 = 0%nat).
Proof.
  unfold handleFileChange, mbind, M_bind, resetStats, clearData, modify, lift.
  simpl. destruct file as [buffer|]; [|done].
  destruct (readFileWithBestEncoding host buffer) as [best|e]; [|done].
  simpl. unfold parseCsvText.
  destruct (parseCsv host (text best)) as [[|r0 data]|]; try done.
  simpl. split_and!; try done. by intros [?|?].
Qed.

(** X17. When [handleFileChange] succeeds on a buffer, the rows in
    [state] are those the parser returned for the text the resolver
    chose, there is a row at least, [rowsBefore] is their number, and
    (on a host that has [TextDecoder]) [encodingHasIssues] is set
    exactly when that text holds a U+FFFD. *)
Theorem upload_stores_parsed_rows (host : Host) (buffer : list byte)
    (st st' : State) :
  handleFileChange host (Some buffer) st = (Ok tt, st') →
  ∃ best data,
    readFileWithBestEncoding host buffer = Ok best
    ∧ parseCsv host (text best) = Some data
    ∧ data ≠ []
    ∧ originalData st' = Some data
    ∧ rowsBefore st' = length data
    ∧ (hasTextDecoder host = true →
       (encodingHasIssues st' = true
        ↔ (0 < countReplacements (text best))%nat)).
Proof.
  unfold handleFileChange, mbind, M_bind, resetStats, clearData, modify, lift.
  simpl.
  destruct (readFileWithBestEncoding host buffer) as [best|e] eqn:Hread;
    [|done].
  simpl. unfold parseCsvText.
  destruct (parseCsv host (text best)) as [[|r0 data]|] eqn:Hparse; try done.
  simpl. intros [= <-]. exists best, (r0 :: data). simpl.
  split_and!; try done.
  intros Hdec. rewrite (resolver_count_text_aux host buffer best Hdec Hread).
  simpl. apply Nat.ltb_lt.
Qed.

(** ** [updatePreviewTable] *)

Lemma ellipsize_length max keep t :
  (keep < max)%nat → (length (ellipsize max keep t) ≤ max)%nat.
Proof.
  intros Hlt. unfold ellipsize.
  destruct (Nat.ltb_spec max (length t)); [|done].
  rewrite length_app, length_take. simpl. lia.
Qed.

Lemma updatePreviewTable_dimensions (headerRow : list cell)
    (rest : list (list cell)) :
  length (previewHead (updatePreviewTable (Some (headerRow :: rest))))
  = length headerRow
  ∧ length (previewBody (updatePreviewTable (Some (headerRow :: rest))))
    = (49 `min` length rest)%nat
  ∧ Forall (λ r, length r = length headerRow)
      (previewBody (updatePreviewTable (Some (headerRow :: rest)))).
Proof.
  cbn [updatePreviewTable previewHead previewBody lookup list_lookup default].
  rewrite !length_fmap, !length_seq. split_and!; [done| |].
  { cbn [length]. lia. }
  apply Forall_fmap, Forall_true. intros r. simpl.
  by rewrite length_fmap, length_seq.
Qed.

(** X18. For a grid that has a row, the preview has one header cell per
    cell of row 0, one body row per row after row 0 up to 49 of them,
    and in every body row one cell per header cell, whatever the length
    of the row shown. *)
Theorem preview_dimensions (headerRow : list cell)
    (rest : list (list cell)) :
  length (previewHead (updatePreviewTable (Some (headerRow :: rest))))
  = length headerRow
  ∧ length (previewBody (updatePreviewTable (Some (headerRow :: rest))))
    = (49 `min` length rest)%nat
  ∧ Forall (λ r, length r = length headerRow)
      (previewBody (updatePreviewTable (Some (headerRow :: rest)))).
Proof. apply updatePreviewTable_dimensions. Qed.

(** X19. No header cell of the preview is empty, and no body cell is
    longer than 60 units: a cell text of up to 60 units is shown as it
    is, a longer one as its first 57 units and an ellipsis. *)
Theorem preview_texts (rows : list (list cell)) :
  Forall (λ t, t ≠ []) (previewHead (updatePreviewTable (Some rows)))
  ∧ Forall (Forall (λ t, (length t ≤ 60)%nat))
      (previewBody (updatePreviewTable (Some rows)))
  ∧ ∀ (r : list cell) (c : nat),
      ((length (safeCellText (cellAt r c)) ≤ 60)%nat →
       bodyText r c = safeCellText (cellAt r c))
      ∧ ((60 < length (safeCellText (cellAt r c)))%nat →
         bodyText r c = take 57 (safeCellText (cellAt r c)) ++ [ELLIPSIS]).
Proof.
  split_and!.
  - destruct rows as [|headerRow rest]; [constructor|].
    cbn [updatePreviewTable previewHead].
    apply Forall_fmap, Forall_true. intros c. simpl. unfold headerText.
    destruct (ellipsize 40 37 _); done.
  - destruct rows as [|headerRow rest]; [constructor|].
    cbn [updatePreviewTable previewBody].
    apply Forall_fmap, Forall_true. intros r. simpl.
    apply Forall_fmap, Forall_true. intros c. simpl.
    apply ellipsize_length. lia.
  - intros r c. unfold bodyText, ellipsize. split; intros Hlen.
    + by rewrite (proj2 (Nat.ltb_ge _ _)) by lia.
    + by rewrite (proj2 (Nat.ltb_lt _ _)) by lia.
Qed.

(** X20. [handleCleanClick] asks for a file exactly when there are no
    parsed rows, and changes [state] only when cleaning succeeds; then
    the state is the one [cleanData] leaves, its cleaned grid has a
    header, and the preview shown has a header cell per cell of that
    header and a body row per cleaned row after it, up to 49. *)
Theorem handleCleanClick_outcome (host : Host) (options : Options)
    (st : State) :
  ((handleCleanClick host options st).1 = PleaseUpload
   ↔ originalData st = None)
  ∧ ((∀ p, (handleCleanClick host options st).1 ≠ CleaningComplete p) →
     (handleCleanClick host options st).2 = st)
  ∧ (∀ p, (handleCleanClick host options st).1 = CleaningComplete p →
       cleanData host options st
       = (Ok tt, (handleCleanClick host options st).2)
       ∧ ∃ header rest,
           cleanedData (handleCleanClick host options st).2
           = Some (header :: rest)
           ∧ length (previewHead p) = length header
           ∧ length (previewBody p) = (49 `min` length rest)%nat).
Proof.
  unfold handleCleanClick.
  destruct (originalData st) as [data|] eqn:Horig; [|done].
  destruct (cleanData host options st) as [[[]|e] st'] eqn:Hrun; simpl.
  - split_and!; [done|by intros H; destruct (H _ eq_refl)|].
    intros p [= <-]. split; [done|].
    apply cleanData_ok_inv in Hrun
      as (original & first & others & stats1 & out & stats' & _ & _
          & Hfin & Hout & _).
    apply finishRows_shape in Hfin as (rest & -> & _).
    exists (headerOf host options first), rest. rewrite Hout.
    split; [done|].
    change (asCells <$> Some (headerOf host options first :: rest))
      with (Some ((CStr <$> headerOf host options first) :: asCells rest)).
    destruct (updatePreviewTable_dimensions
                (CStr <$> headerOf host options first) (asCells rest))
      as (-> & -> & _).
    unfold asCells. by rewrite !length_fmap.
  - split_and!; [done| |done]. intros _.
    pose proof (cleanData_eq host options st) as E. rewrite Hrun in E.
    revert E. rewrite Horig. destruct data as [|r0 data]; [by intros [= _ ->]|].
    destruct (cleanRows _ _ _) as [[|first others] stats];
      [by intros [= _ ->]|].
    destruct (finishRows _ _ _ _) as [[??]|?]; [done|by intros [= _ ->]].
Qed.

(** ** [downloadCleanedCsv] *)

Lemma toCrlf_crlfOnly_upto n : ∀ s, (length s ≤ n)%nat → crlfOnly (toCrlf s).
Proof.
  induction n as [|n IH]; intros [|c r] Hlen; simpl in *; try done; [lia|].
  destruct (N.eqb_spec c CR) as [->|Hc].
  - simpl. split; [done|]. destruct r as [|c' r']; [done|].
    simpl in Hlen. destruct (c' =? LF); apply IH; simpl; lia.
  - destruct (N.eqb_spec c LF) as [->|Hl].
    + simpl. split; [done|]. apply IH. lia.
    + simpl. apply N.eqb_neq in Hc. rewrite Hc. split; [done|].
      apply IH. lia.
Qed.

Lemma toCrlf_fix_upto n : ∀ s,
  (length s ≤ n)%nat → crlfOnly s → toCrlf s = s.
Proof.
  induction n as [|n IH]; intros [|c r] Hlen; simpl in *; try done; [lia|].
  destruct (N.eqb_spec c CR) as [->|Hc].
  - destruct r as [|c' r']; [done|]. intros [-> Hr]. simpl.
    rewrite IH; [done| |done]. simpl in Hlen. lia.
  - intros [Hl Hr]. apply N.eqb_neq in Hl. rewrite Hl.
    rewrite IH; [done| |done]. lia.
Qed.

Lemma toCrlf_text_upto n : ∀ s,
  (length s ≤ n)%nat →
  filter (λ c, c ≠ CR ∧ c ≠ LF) (toCrlf s) = filter (λ c, c ≠ CR ∧ c ≠ LF) s.
Proof.
  induction n as [|n IH]; intros [|c r] Hlen; simpl in *; try done; [lia|].
  destruct (N.eqb_spec c CR) as [->|Hc].
  - rewrite !filter_cons. rewrite !decide_False by (intros [??]; done).
    destruct r as [|c' r']; [done|]. simpl in Hlen.
    destruct (N.eqb_spec c' LF) as [->|Hl].
    + rewrite filter_cons, decide_False by (intros [??]; done).
      apply IH. lia.
    + apply IH. simpl. lia.
  - destruct (N.eqb_spec c LF) as [->|Hl].
    + rewrite !filter_cons. rewrite !decide_False by (intros [??]; done).
      apply IH. lia.
    + rewrite !filter_cons, !decide_True by done. f_equal. apply IH. lia.
Qed.

(** X21. The line-ending pass of the download returns a text in which
    every carriage return is followed by a line feed and every line
    feed follows a carriage return; it leaves the units that are
    neither untouched and in their order; applied twice it does what
    it does once. *)
Theorem toCrlf_normalizes (s : jsstring) :
  crlfOnly (toCrlf s)
  ∧ filter (λ c, c ≠ CR ∧ c ≠ LF) (toCrlf s)
    = filter (λ c, c ≠ CR ∧ c ≠ LF) s
  ∧ toCrlf (toCrlf s) = toCrlf s.
Proof.
  split_and!.
  - by apply (toCrlf_crlfOnly_upto (length s)).
  - by apply (toCrlf_text_upto (length s)).
  - apply (toCrlf_fix_upto (length (toCrlf s))); [done|].
    by apply (toCrlf_crlfOnly_upto (length s)).
Qed.

Lemma forallb_isExtensionChar e :
  forallb isExtensionChar e = true ↔ Forall (λ c, c ≠ DOT ∧ c ≠ SLASH) e.
Proof.
  rewrite forallb_forall, Forall_forall. unfold isExtensionChar.
  split; intros H c Hin.
  - apply list_elem_of_In, H in Hin.
    apply negb_true_iff, orb_false_iff in Hin as [H1 H2].
    by rewrite !N.eqb_neq in *.
  - apply list_elem_of_In, H in Hin as [H1 H2].
    apply negb_true_iff, orb_false_iff. by rewrite !N.eqb_neq.
Qed.

Lemma stripExtension_match p e :
  e ≠ [] → Forall (λ c, c ≠ DOT ∧ c ≠ SLASH) e →
  stripExtension (p ++ DOT :: e) = p.
Proof.
  intros Hne He. induction p as [|c p IH]; simpl.
  - rewrite bool_decide_false by done.
    by rewrite (proj2 (forallb_isExtensionChar e) He).
  - rewrite IH. replace (forallb isExtensionChar (p ++ DOT :: e)) with false;
      [by rewrite andb_false_r|].
    symmetry. apply not_true_is_false. intros H%forallb_isExtensionChar.
    apply Forall_app in H as [_ H]. inversion H as [|?? [??]]; done.
Qed.

Lemma stripExtension_no_match name :
  (∀ p e, name = p ++ DOT :: e → e ≠ [] →
          ¬ Forall (λ c, c ≠ DOT ∧ c ≠ SLASH) e) →
  stripExtension name = name.
Proof.
  induction name as [|c r IH]; intros Hno; [done|]. simpl.
  destruct ((c =? DOT) && negb (bool_decide (r = []))
            && forallb isExtensionChar r) eqn:E.
  - apply andb_prop in E as [[Hc Hr]%andb_prop He].
    apply N.eqb_eq in Hc as ->. apply negb_true_iff in Hr.
    apply bool_decide_eq_false in Hr.
    destruct (Hno [] r eq_refl Hr). by apply forallb_isExtensionChar.
  - f_equal. apply IH. intros p e -> Hne. by apply (Hno (c :: p) e).
Qed.

(** X22. The base name used for the download is the file name without
    its last extension: a name that ends in a dot followed by one unit
    or more, none of them a dot or a slash, loses that ending, and a
    name with no such ending is kept whole. *)
Theorem stripExtension_removes_last_extension (name : jsstring) :
  (∀ p e, name = p ++ DOT :: e → e ≠ [] →
          Forall (λ c, c ≠ DOT ∧ c ≠ SLASH) e →
          stripExtension name = p)
  ∧ ((∀ p e, name = p ++ DOT :: e → e ≠ [] →
             ¬ Forall (λ c, c ≠ DOT ∧ c ≠ SLASH) e) →
     stripExtension name = name).
Proof.
  split.
  - intros p e -> Hne He. by apply stripExtension_match.
  - apply stripExtension_no_match.
Qed.

(** X23. After a successful [cleanData], and with a file name at hand,
    [downloadCleanedCsv] starts a download: the blob is the CSV text of
    the cleaned grid, behind a BOM exactly when [encodingFix] is on; the
    text is what [Papa.unparse] returns, passed through the line-ending
    pass when [normalizeFormat] is on, so that it then has CRLF line
    ends only; the name is [cleaned_], the base name and [.csv]. *)
Theorem download_after_clean (unparse : bool → grid → jsstring)
    (host : Host) (options : Options) (output : OutputOptions)
    (name : jsstring) (st st' : State) :
  cleanData host options st = (Ok tt, st') →
  ∃ cleaned csv,
    cleanedData st' = Some cleaned
    ∧ downloadCleanedCsv unparse (Some name) output st'
      = inr {| blobParts :=
                 (if encodingFix output then [[BOM]] else []) ++ [csv];
               downloadName :=
                 literal "cleaned_" ++ stripExtension name
                   ++ literal ".csv" |}
    ∧ (normalizeFormat output = true →
       csv = toCrlf (unparse (consistentQuotes output) cleaned)
       ∧ crlfOnly csv)
    ∧ (normalizeFormat output = false →
       csv = unparse (consistentQuotes output) cleaned).
Proof.
  intros (original & first & others & stats1 & out & stats' & _ & _
          & Hfin & Hout & _)%cleanData_ok_inv.
  apply finishRows_shape in Hfin as (rest & -> & _).
  unfold downloadCleanedCsv. rewrite Hout.
  eexists _, _. split; [done|]. split; [done|].
  destruct (normalizeFormat output); split; try done.
  intros _. split; [done|]. by eapply toCrlf_crlfOnly_upto.
Qed.

(** X24. After [handleFileChange], whatever its outcome, there is
    nothing to download until a cleaning succeeds; and if it failed or
    there was no file, [handleCleanClick] asks for a file. *)
Theorem nothing_to_download_after_upload (unparse : bool → grid → jsstring)
    (host : Host) (options : Options) (output : OutputOptions)
    (file : option (list byte)) (name : option jsstring) (st : State) :
  downloadCleanedCsv unparse name output (handleFileChange host file st).2
  = inl NothingToDownload
  ∧ ((handleFileChange host file st).1 ≠ Ok tt ∨ file = None →
     handleCleanClick host options (handleFileChange host file st).2
     = (PleaseUpload, (handleFileChange host file st).2)).
Proof.
  assert (cleanedData (handleFileChange host file st).2 = None
          ∧ ((handleFileChange host file st).1 ≠ Ok tt ∨ file = None →
             originalData (handleFileChange host file st).2 = None))
    as [Hclean Horig].
  { unfold handleFileChange, mbind, M_bind, resetStats, clearData, modify,
      lift.
    simpl. destruct file as [buffer|]; [|done].
    destruct (readFileWithBestEncoding host buffer) as [best|e]; [|done].
    simpl. unfold parseCsvText.
    destruct (parseCsv host (text best)) as [[|r0 data]|]; try done.
    simpl. split; [done|]. by intros [?|?]. }
  split.
  - unfold downloadCleanedCsv. by rewrite Hclean.
  - intros H. unfold handleCleanClick. by rewrite (Horig H).
Qed.

(** ** The added statements at concrete inputs *)

Ltac decide_by_computation :=
  apply (bool_decide_unpack _); vm_compute; exact I.

Lemma cleaned_cells_hold_no_carriage_return_witness :
  cleanData Reference.host allOptions
    (loadedState [Reference.cells ["a"]; [CStr [98; 13; 10; 99; 13]]])
  = (Ok tt,
     {| encodingUsed := "utf-8"; encodingHasIssues := false;
        originalData :=
          Some [Reference.cells ["a"]; [CStr [98; 13; 10; 99; 13]]];
        cleanedData := Some [[[97]]; [[98; 10; 99]]];
        rowsBefore := 2; rowsAfter := 2; lastStats := Some zeroStats |})
  ∧ Forall (Forall (Forall (λ c, c ≠ CR))) [[[97]]; [[98; 10; 99]]].
Proof.
  split; [by vm_compute|].
  exact (cleaned_cells_hold_no_carriage_return Reference.host allOptions
           (loadedState [Reference.cells ["a"]; [CStr [98; 13; 10; 99; 13]]])
           _ _ eq_refl eq_refl).
Defined.

Lemma cleaned_cells_are_trimmed_witness :
  trim allOptions = true
  ∧ Forall (Forall (λ c, headFree isWhiteSpace c ∧ lastFree isWhiteSpace c))
      [Reference.strings ["name"; "email"];
       Reference.strings ["Alice"; "a@x.com"]].
Proof.
  split; [reflexivity|].
  exact (cleaned_cells_are_trimmed Reference.host allOptions
           (loadedState roundTripGrid) _ _ eq_refl eq_refl eq_refl).
Defined.

Lemma disabled_steps_count_nothing_witness :
  removeEmpty dedupeOnly = false ∧ fixColumns dedupeOnly = false
  ∧ ∃ stats,
      lastStats (cleanData Reference.host dedupeOnly
                   (loadedState roundTripGrid)).2 = Some stats
      ∧ removedEmpty stats = 0%nat
      ∧ trimmedColumns stats = 0%nat ∧ paddedColumns stats = 0%nat.
Proof.
  split; [reflexivity|]. split; [reflexivity|].
  eexists. split; [reflexivity|].
  destruct (disabled_steps_count_nothing Reference.host dedupeOnly
              (loadedState roundTripGrid) _ _ eq_refl eq_refl)
    as (H1 & H2 & _).
  split; [exact (H1 eq_refl)|exact (H2 eq_refl)].
Defined.

Lemma cleanData_succeeds_without_removeEmpty_witness :
  removeEmpty dedupeOnly = false
  ∧ originalData (loadedState blankGrid) = Some blankGrid
  ∧ blankGrid ≠ []
  ∧ ∃ st' out stats,
      cleanData Reference.host dedupeOnly (loadedState blankGrid)
      = (Ok tt, st')
      ∧ cleanedData st' = Some out
      ∧ lastStats st' = Some stats
      ∧ removedEmpty stats = 0%nat
      ∧ (length out + duplicatesRemoved stats = length blankGrid)%nat.
Proof.
  split; [reflexivity|]. split; [reflexivity|]. split; [discriminate|].
  apply (cleanData_succeeds_without_removeEmpty Reference.host dedupeOnly
           (loadedState blankGrid) blankGrid);
    [reflexivity|reflexivity|discriminate].
Defined.

Lemma cleanData_changes_nothing_when_all_off_witness :
  noToggle noToggles
  ∧ cleanData Reference.host noToggles
      (loadedState (asCells [Reference.strings ["a"; " b "];
                             Reference.strings [""; "2"; "3"]]))
    = (Ok tt,
       {| encodingUsed := "utf-8"; encodingHasIssues := false;
          originalData :=
            Some (asCells [Reference.strings ["a"; " b "];
                           Reference.strings [""; "2"; "3"]]);
          cleanedData := Some [Reference.strings ["a"; " b "];
                               Reference.strings [""; "2"; "3"]];
          rowsBefore := 2; rowsAfter := 2; lastStats := Some zeroStats |}).
Proof.
  assert (noToggle noToggles) as Hoff by (by repeat split).
  split; [exact Hoff|].
  apply (cleanData_changes_nothing_when_all_off Reference.host noToggles
           (loadedState (asCells [Reference.strings ["a"; " b "];
                                  Reference.strings [""; "2"; "3"]]))
           [Reference.strings ["a"; " b "]; Reference.strings [""; "2"; "3"]]
           Hoff eq_refl).
  - discriminate.
  - decide_by_computation.
  - intros r0 c0 [= <-] [= <-]. vm_compute. discriminate.
Defined.

Lemma rowKey_injective_witness :
  separatorFree (Reference.strings ["a"; "b"])
  ∧ rowKey (Reference.strings ["a"; "b"])
    = rowKey [Reference.units "a"; Reference.units "b"]
  ∧ Reference.strings ["a"; "b"]
    = [Reference.units "a"; Reference.units "b"].
Proof.
  assert (separatorFree (Reference.strings ["a"; "b"])) as Hfree
    by decide_by_computation.
  split; [exact Hfree|]. split; [reflexivity|].
  apply rowKey_injective;
    [discriminate|discriminate|exact Hfree|exact Hfree|reflexivity].
Defined.

Lemma dedupe_loses_no_distinct_row_witness :
  dedupe dedupeOnly = true
  ∧ ∃ kept stats',
      dedupeRows dedupeOnly
        (Reference.strings ["id"]
           :: [Reference.strings ["7"]; Reference.strings ["8"];
               Reference.strings ["7"]]) zeroStats
      = Ok (Reference.strings ["id"] :: kept, stats')
      ∧ (∀ r, r ∈ [Reference.strings ["7"]; Reference.strings ["8"];
                   Reference.strings ["7"]] →
              r ∈ Reference.strings ["id"] :: kept).
Proof.
  split; [reflexivity|].
  destruct (dedupe_loses_no_distinct_row dedupeOnly
    (Reference.strings ["id"])
    [Reference.strings ["7"]; Reference.strings ["8"];
     Reference.strings ["7"]] zeroStats eq_refl)
    as (kept & stats' & H1 & _ & _ & H2 & _).
  { repeat (constructor;
              [split; [discriminate|decide_by_computation]|]).
    constructor. }
  exists kept, stats'. split; [exact H1|exact H2].
Defined.

Lemma dedupeRows_idempotent_witness :
  dedupeRows dedupeOnly
    [Reference.strings ["id"]; Reference.strings ["7"];
     Reference.strings ["7"]] zeroStats
  = Ok ([Reference.strings ["id"]; Reference.strings ["7"]],
        {| removedEmpty := 0; duplicatesRemoved := 1;
           trimmedColumns := 0; paddedColumns := 0 |})
  ∧ dedupeRows dedupeOnly
      [Reference.strings ["id"]; Reference.strings ["7"]] zeroStats
    = Ok ([Reference.strings ["id"]; Reference.strings ["7"]], zeroStats).
Proof.
  assert (dedupeRows dedupeOnly
            [Reference.strings ["id"]; Reference.strings ["7"];
             Reference.strings ["7"]] zeroStats
          = Ok ([Reference.strings ["id"]; Reference.strings ["7"]],
                {| removedEmpty := 0; duplicatesRemoved := 1;
                   trimmedColumns := 0; paddedColumns := 0 |})) as Hrun
    by (by vm_compute).
  split; [exact Hrun|].
  exact (dedupeRows_idempotent dedupeOnly _ _ _ _ zeroStats Hrun).
Defined.

Lemma fixColumnCounts_idempotent_witness :
  fixColumnCounts onlyFixColumns
    [Reference.strings ["a"; "b"]; Reference.strings ["1"];
     Reference.strings ["2"; "3"; "4"]] zeroStats
  = Ok ([Reference.strings ["a"; "b"]; Reference.strings ["1"; ""];
         Reference.strings ["2"; "3"]],
        {| removedEmpty := 0; duplicatesRemoved := 0;
           trimmedColumns := 1; paddedColumns := 1 |})
  ∧ fixColumnCounts onlyFixColumns
      [Reference.strings ["a"; "b"]; Reference.strings ["1"; ""];
       Reference.strings ["2"; "3"]] zeroStats
    = Ok ([Reference.strings ["a"; "b"]; Reference.strings ["1"; ""];
           Reference.strings ["2"; "3"]], zeroStats).
Proof.
  assert (fixColumnCounts onlyFixColumns
            [Reference.strings ["a"; "b"]; Reference.strings ["1"];
             Reference.strings ["2"; "3"; "4"]] zeroStats
          = Ok ([Reference.strings ["a"; "b"]; Reference.strings ["1"; ""];
                 Reference.strings ["2"; "3"]],
                {| removedEmpty := 0; duplicatesRemoved := 0;
                   trimmedColumns := 1; paddedColumns := 1 |})) as Hrun
    by (by vm_compute).
  split; [exact Hrun|].
  exact (fixColumnCounts_idempotent onlyFixColumns _ _ _ _ zeroStats Hrun).
Defined.

Lemma finishRows_idempotent_witness :
  lowerCaseFixesHeaderChars Reference.host
  ∧ finishRows Reference.host allOptions
      [Reference.strings ["First Name"; "Age"];
       Reference.strings ["Ann"; "41"; "x"]; Reference.strings ["Bob"]]
      zeroStats
    = Ok ([Reference.strings ["first_name"; "age"];
           Reference.strings ["Ann"; "41"]; Reference.strings ["Bob"; ""]],
          {| removedEmpty := 0; duplicatesRemoved := 0;
             trimmedColumns := 1; paddedColumns := 1 |})
  ∧ finishRows Reference.host allOptions
      [Reference.strings ["first_name"; "age"];
       Reference.strings ["Ann"; "41"]; Reference.strings ["Bob"; ""]]
      zeroStats
    = Ok ([Reference.strings ["first_name"; "age"];
           Reference.strings ["Ann"; "41"]; Reference.strings ["Bob"; ""]],
          zeroStats).
Proof.
  assert (finishRows Reference.host allOptions
      [Reference.strings ["First Name"; "Age"];
       Reference.strings ["Ann"; "41"; "x"]; Reference.strings ["Bob"]]
      zeroStats
    = Ok ([Reference.strings ["first_name"; "age"];
           Reference.strings ["Ann"; "41"]; Reference.strings ["Bob"; ""]],
          {| removedEmpty := 0; duplicatesRemoved := 0;
             trimmedColumns := 1; paddedColumns := 1 |})) as Hrun
    by (by vm_compute).
  split; [exact reference_lowerCase_fixes|]. split; [exact Hrun|].
  exact (finishRows_idempotent Reference.host allOptions _ _ _ _ _ zeroStats
           reference_lowerCase_fixes Hrun).
Defined.

Lemma cleaned_header_is_normalized_witness :
  normalizeHeader allOptions = true
  ∧ ∃ header rest,
      cleanedData (cleanData Reference.host allOptions
                     (loadedState roundTripGrid)).2
      = Some (header :: rest)
      ∧ Forall headerNormal header.
Proof.
  split; [reflexivity|].
  exact (cleaned_header_is_normalized Reference.host allOptions
           (loadedState roundTripGrid) _ eq_refl eq_refl).
Defined.

Lemma cleanData_idempotent_witness :
  lowerCaseFixesHeaderChars Reference.host
  ∧ trim allOptions = true
  ∧ cleanedData (cleanData Reference.host allOptions
                   (loadedState roundTripGrid)).2
    = Some [Reference.strings ["name"; "email"];
            Reference.strings ["Alice"; "a@x.com"]]
  ∧ cleanData Reference.host allOptions
      (loadedState (asCells [Reference.strings ["name"; "email"];
                             Reference.strings ["Alice"; "a@x.com"]]))
    = (Ok tt,
       {| encodingUsed := "utf-8"; encodingHasIssues := false;
          originalData :=
            Some (asCells [Reference.strings ["name"; "email"];
                           Reference.strings ["Alice"; "a@x.com"]]);
          cleanedData := Some [Reference.strings ["name"; "email"];
                               Reference.strings ["Alice"; "a@x.com"]];
          rowsBefore := 2; rowsAfter := 2; lastStats := Some zeroStats |}).
Proof.
  split; [exact reference_lowerCase_fixes|]. split; [reflexivity|].
  split; [reflexivity|].
  apply (cleanData_idempotent Reference.host allOptions
           (loadedState roundTripGrid) _
           (loadedState (asCells [Reference.strings ["name"; "email"];
                                  Reference.strings ["Alice"; "a@x.com"]]))
           [Reference.strings ["name"; "email"];
            Reference.strings ["Alice"; "a@x.com"]]
           reference_lowerCase_fixes eq_refl eq_refl eq_refl).
  - intros _. repeat (constructor; [by vm_compute|]). constructor.
  - reflexivity.
Defined.

Lemma resolver_count_matches_text_witness :
  hasTextDecoder Reference.host = true
  ∧ readFileWithBestEncoding Reference.host [xef; xbf; xbd; x41]
    = Ok {| text := [239; 191; 189; 65]; encoding := "windows-1252";
            replacementCount := Finite 0 |}
  ∧ Finite 0 = Finite (countReplacements [239; 191; 189; 65]).
Proof.
  split; [reflexivity|]. split; [reflexivity|].
  exact (resolver_count_matches_text Reference.host [xef; xbf; xbd; x41]
           {| text := [239; 191; 189; 65]; encoding := "windows-1252";
              replacementCount := Finite 0 |} eq_refl eq_refl).
Defined.

Lemma resolver_outcomes_witness :
  readFileWithBestEncoding Reference.host [xe9; x41]
  = Ok {| text := [233; 65]; encoding := "windows-1252";
          replacementCount := Finite 0 |}
  ∧ ("windows-1252" : string) ∈ encodingsToTry
  ∧ readFileWithBestEncoding Reference.unreadable [xe9; x41]
    = Err ReadError
  ∧ (hasTextDecoder Reference.unreadable = true ∧ ReadError = HostError
     ∧ text (tryEncodings Reference.unreadable [xe9; x41] encodingsToTry)
       = []
     ∧ decodeDefault Reference.unreadable [xe9; x41] = None
     ∨ hasTextDecoder Reference.unreadable = false ∧ ReadError = ReadError
       ∧ readAsText Reference.unreadable [xe9; x41] = None).
Proof.
  split; [reflexivity|]. split.
  - exact (proj1 (resolver_outcomes Reference.host [xe9; x41])
             {| text := [233; 65]; encoding := "windows-1252";
                replacementCount := Finite 0 |} eq_refl).
  - split; [reflexivity|].
    exact (proj1 (proj2 (resolver_outcomes Reference.unreadable [xe9; x41])
                    ReadError) eq_refl).
Defined.

Lemma upload_discards_earlier_results_witness :
  cleanedData
    (cleanData Reference.host allOptions (loadedState roundTripGrid)).2
  ≠ None
  ∧ originalData
      (handleFileChange Reference.host None
         (cleanData Reference.host allOptions
            (loadedState roundTripGrid)).2).2
    = None
  ∧ rowsBefore
      (handleFileChange Reference.host None
         (cleanData Reference.host allOptions
            (loadedState roundTripGrid)).2).2
    = 0%nat.
Proof.
  split; [vm_compute; discriminate|].
  apply (proj2 (proj2 (proj2
    (upload_discards_earlier_results Reference.host None
       (cleanData Reference.host allOptions
          (loadedState roundTripGrid)).2)))).
  by right.
Defined.

Lemma upload_stores_parsed_rows_witness :
  handleFileChange Reference.host (Some (Reference.bytes "a,b")) initialState
  = (Ok tt, loadedState [Reference.cells ["a"; "b"]])
  ∧ ∃ best data,
      readFileWithBestEncoding Reference.host (Reference.bytes "a,b")
      = Ok best
      ∧ parseCsv Reference.host (text best) = Some data
      ∧ originalData (loadedState [Reference.cells ["a"; "b"]]) = Some data
      ∧ rowsBefore (loadedState [Reference.cells ["a"; "b"]]) = length data.
Proof.
  split; [reflexivity|].
  destruct (upload_stores_parsed_rows Reference.host (Reference.bytes "a,b")
              initialState (loadedState [Reference.cells ["a"; "b"]])
              eq_refl)
    as (best & data & H1 & H2 & _ & H3 & H4 & _).
  exists best, data. split_and!; assumption.
Defined.

Lemma preview_texts_witness :
  (length (safeCellText (cellAt (Reference.cells ["a"; "bc"]) 1)) ≤ 60)%nat
  ∧ bodyText (Reference.cells ["a"; "bc"]) 1 = Reference.units "bc".
Proof.
  split; [vm_compute; lia|].
  apply (proj1 (proj2 (proj2 (preview_texts [])) (Reference.cells ["a"; "bc"])
                  1%nat)).
  vm_compute. lia.
Defined.

Lemma handleCleanClick_outcome_witness :
  (handleCleanClick Reference.host allOptions initialState).1 = PleaseUpload
  ∧ (handleCleanClick Reference.host allOptions (loadedState blankGrid)).2
    = loadedState blankGrid.
Proof.
  split.
  - apply (proj1 (handleCleanClick_outcome Reference.host allOptions
                    initialState)).
    reflexivity.
  - apply (proj1 (proj2 (handleCleanClick_outcome Reference.host allOptions
                           (loadedState blankGrid)))).
    intros p. vm_compute. discriminate.
Defined.

Lemma stripExtension_removes_last_extension_witness :
  literal "data.v1.csv" = literal "data.v1" ++ DOT :: literal "csv"
  ∧ stripExtension (literal "data.v1.csv") = literal "data.v1"
  ∧ stripExtension (literal "a.b/c") = literal "a.b/c".
Proof.
  split; [reflexivity|]. split.
  - apply (proj1 (stripExtension_removes_last_extension
                    (literal "data.v1.csv")) (literal "data.v1")
             (literal "csv")); [reflexivity|discriminate|].
    decide_by_computation.
  - apply (proj2 (stripExtension_removes_last_extension (literal "a.b/c"))).
    intros p e Hname Hne He.
    apply (stripExtension_match p) in He; [|exact Hne].
    rewrite <- Hname in He. vm_compute in He. subst p.
    by vm_compute in Hname.
Defined.

Lemma download_after_clean_witness :
  ∃ cleaned csv,
    cleanedData (cleanData Reference.host allOptions
                   (loadedState roundTripGrid)).2 = Some cleaned
    ∧ downloadCleanedCsv (λ _ g, join [LF] (join [44] <$> g))
        (Some (literal "people.csv"))
        {| consistentQuotes := false; normalizeFormat := true;
           encodingFix := true |}
        (cleanData Reference.host allOptions (loadedState roundTripGrid)).2
      = inr {| blobParts := [[BOM]; csv];
               downloadName := literal "cleaned_people.csv" |}
    ∧ crlfOnly csv.
Proof.
  destruct (download_after_clean (λ _ g, join [LF] (join [44] <$> g))
              Reference.host allOptions
              {| consistentQuotes := false; normalizeFormat := true;
                 encodingFix := true |}
              (literal "people.csv") (loadedState roundTripGrid) _ eq_refl)
    as (cleaned & csv & H1 & H2 & H3 & _).
  exists cleaned, csv. split; [exact H1|]. split; [exact H2|].
  exact (proj2 (H3 eq_refl)).
Defined.

Lemma nothing_to_download_after_upload_witness :
  (handleFileChange Reference.host None
     (cleanData Reference.host allOptions (loadedState roundTripGrid)).2).1
  = Ok tt
  ∧ handleCleanClick Reference.host allOptions
      (handleFileChange Reference.host None
         (cleanData Reference.host allOptions
            (loadedState roundTripGrid)).2).2
    = (PleaseUpload,
       (handleFileChange Reference.host None
          (cleanData Reference.host allOptions
             (loadedState roundTripGrid)).2).2).
Proof.
  split; [reflexivity|].
  apply (proj2 (nothing_to_download_after_upload
                  (λ _ g, join [LF] (join [44] <$> g)) Reference.host
                  allOptions
                  {| consistentQuotes := false; normalizeFormat := true;
                     encodingFix := true |}
                  None None
                  (cleanData Reference.host allOptions
                     (loadedState roundTripGrid)).2)).
  by right.
Defined.
